(** * A shallow embedding of the logspout fluentd adapter (adapter.go)

    The adapter has two entry points: [NewAdapter], which reads the
    process environment, probes the collector with a bounded dial loop and
    builds the fluent writer, and [Adapter.Stream], which drains a channel
    of log messages and posts each non-blank one to the writer.

    Go values are modelled as the code has them: [string] is a byte
    sequence, [int] and [time.Duration] are 64-bit signed integers (amd64)
    written as [Z] with the wrap-around spelled out, [map[string]string] is
    a [gmap string string] (a nil map reads like the empty one), a function
    returning [(value, error)] returns a pair whose second component is an
    [option error] ([None] is Go's nil error).  Effects (dialling, sleeping,
    logging, posting) thread an abstract world and emit a trace of events. *)

From Stdlib Require Import ZArith String Ascii List Lia Bool DecimalString.
From stdpp Require Import base option list strings gmap.

Local Open Scope Z_scope.

(** ** Machine integers *)

Module Int64.
Definition min_int : Z := - 2 ^ 63.
Definition max_int : Z := 2 ^ 63 - 1.

(** Two's complement wrap-around of a mathematical integer to 64 bits. *)
Definition wrap (z : Z) : Z := (z + 2 ^ 63) mod 2 ^ 64 - 2 ^ 63.

Definition in_range (z : Z) : Prop := min_int <= z <= max_int.

Definition add (a b : Z) : Z := wrap (a + b).
Definition mul (a b : Z) : Z := wrap (a * b).
End Int64.

(** ** Errors *)

Inductive num_err := ErrSyntax | ErrRange.

(** The error values the adapter can see or build. *)
Inductive error :=
| errors_New (msg : string)
| NumError (func num : string) (why : num_err)
| errors_Wrapf (cause : error) (msg : string)
| ExternalError (msg : string).

(** ** regexp: the fragment of RE2 syntax used by the adapter *)

Module regexp.

Inductive syntax :=
| OpEmptyMatch
| OpBeginText
| OpEndText
| OpCharClass (cls : ascii → bool)
| OpConcat (r1 r2 : syntax)
| OpStar (r : syntax).

(** Backtracking matcher in continuation-passing style.  [bot] tells
    whether the current position is the beginning of the text; [k]
    receives the position reached by a match of [r].  An iteration of a
    starred expression has to consume input to be repeated. *)
Fixpoint matches (r : syntax) (bot : bool) (s : string)
         (k : bool → string → bool) : bool :=
  match r with
  | OpEmptyMatch => k bot s
  | OpBeginText => bot && k bot s
  | OpEndText => match s with EmptyString => k bot s | String _ _ => false end
  | OpCharClass cls =>
      match s with
      | EmptyString => false
      | String c s' => cls c && k false s'
      end
  | OpConcat r1 r2 => matches r1 bot s (λ b s', matches r2 b s' k)
  | OpStar r1 =>
      (fix star (fuel : nat) (b : bool) (t : string) : bool :=
         k b t ||
         match fuel with
         | O => false
         | S fuel' =>
             matches r1 b t
               (λ b' t', (String.length t' <? String.length t)%nat
                         && star fuel' b' t')
         end) (String.length s) bot s
  end.

(** Unanchored search: a match may start at any position. *)
Fixpoint search (r : syntax) (bot : bool) (s : string) : bool :=
  matches r bot s (λ _ _, true) ||
  match s with
  | EmptyString => false
  | String _ s' => search r false s'
  end.

(** POSIX class [[:space:]]: tab, newline, vertical tab, form feed,
    carriage return and space.  The class is ASCII only, and no byte of a
    multi-byte UTF-8 sequence (nor an invalid byte, which decodes to
    U+FFFD) belongs to it, so matching byte by byte agrees with matching
    rune by rune. *)
Definition posix_space (c : ascii) : bool :=
  let n := nat_of_ascii c in
  ((9 <=? n) && (n <=? 13) || (n =? 32))%nat.

(** The parse of ["^[[:space:]]*$"] (no multi-line flag: [^] and [$] are
    the beginning and the end of the text). *)
Definition blank_pattern : syntax :=
  OpConcat OpBeginText (OpConcat (OpStar (OpCharClass posix_space)) OpEndText).

(** [regexp.MatchString] for a pattern that compiles: the error is nil. *)
Definition MatchString (pattern : syntax) (s : string) : bool * option error :=
  (search pattern true s, None).

End regexp.

(** ** strconv *)

Module strconv.

Definition is_digit (c : ascii) : bool :=
  let n := nat_of_ascii c in ((48 <=? n) && (n <=? 57))%nat.

(** The digit loop of [strconv.ParseUint] in base 10 with 64 bits,
    from left to right: a byte that is not a decimal digit is a syntax
    error; a digit that takes the number past [2 ^ 64 - 1] is a range error,
    reported at once, whatever follows. *)
Fixpoint parse_digits (n : Z) (s : string) : Z + num_err :=
  match s with
  | EmptyString => inl n
  | String c s' =>
      if is_digit c then
        let n1 := n * 10 + (Z.of_nat (nat_of_ascii c) - 48) in
        if 2 ^ 64 - 1 <? n1 then inr ErrRange else parse_digits n1 s'
      else inr ErrSyntax
  end.

Definition syntaxError (fn str : string) : error := NumError fn str ErrSyntax.
Definition rangeError (fn str : string) : error := NumError fn str ErrRange.

(** The sign in front of a number, and what follows it. *)
Definition split_sign (s : string) : bool * string :=
  match s with
  | String "-" rest => (true, rest)
  | String "+" rest => (false, rest)
  | _ => (false, s)
  end.

(** [strconv.Atoi]: an optional sign, then at least one decimal digit
    and nothing else; a value outside the range of [int] is clamped and
    reported with a range error. *)
Definition Atoi (s : string) : Z * option error :=
  let '(neg, body) := split_sign s in
  match body with
  | EmptyString => (0, Some (syntaxError "Atoi" s))
  | String _ _ =>
      match parse_digits 0 body with
      | inr ErrSyntax => (0, Some (syntaxError "Atoi" s))
      | inr ErrRange =>
          if neg then (Int64.min_int, Some (rangeError "Atoi" s))
          else (Int64.max_int, Some (rangeError "Atoi" s))
      | inl un =>
          if neg then
            if 2 ^ 63 <? un then (Int64.min_int, Some (rangeError "Atoi" s))
            else (- un, None)
          else
            if 2 ^ 63 <=? un then (Int64.max_int, Some (rangeError "Atoi" s))
            else (un, None)
      end
  end.

(** [strconv.ParseBool]. *)
Definition ParseBool (str : string) : bool * option error :=
  if bool_decide (str ∈ ["1"; "t"; "T"; "true"; "TRUE"; "True"]) then (true, None)
  else if bool_decide (str ∈ ["0"; "f"; "F"; "false"; "FALSE"; "False"]) then (false, None)
  else (false, Some (syntaxError "ParseBool" str)).

(** [strconv.Itoa]. *)
Definition Itoa (i : Z) : string :=
  NilZero.string_of_int (Z.to_int i).

End strconv.

(** ** Data of the collaborating packages *)

(** [docker.Config] and [docker.Container], the fields the adapter reads. *)
Record docker_Config := {
  Hostname : string;
  Labels : gmap string string;
}.

Record docker_Container := {
  ID : string;
  Name : string;
  Config : docker_Config;
}.

(** [router.Route], the fields the adapter reads. *)
Record router_Route := {
  Route_Adapter : string;
  Address : string;
  Options : gmap string string;
}.

(** [fluent.Config] as [NewAdapter] fills it; [WriteTimeout] is a
    [time.Duration], in nanoseconds. *)
Record fluent_Config := {
  FluentHost : string;
  FluentPort : Z;
  FluentNetwork : string;
  FluentSocketPath : string;
  BufferLimit : Z;
  RetryWait : Z;
  MaxRetry : Z;
  Async : bool;
  SubSecondPrecision : bool;
  RequestAck : bool;
  WriteTimeout : Z;
}.

(** [time.Second], a [time.Duration]: nanoseconds in a second. *)
Definition time_Second : Z := 1000000000.

(** The collaborators behind the adapter: logspout's transport registry,
    the network, and the fluent client.  Their effects act on a [World]. *)
Class Platform := {
  Time : Type;
  World : Type;
  AdapterTransport : Type;
  Fluent : Type;
  Route_AdapterTransport : router_Route → string → string;
  AdapterTransports_Lookup : string → AdapterTransport * bool;
  AdapterTransport_Dial :
    AdapterTransport → string → gmap string string → World → option error * World;
  net_SplitHostPort : string → string * string * option error;
  fluent_New : fluent_Config → World → (Fluent * option error) * World;
  Fluent_PostWithTime :
    Fluent → string → Time → gmap string string → World → option error * World;
}.

Section Adapter.
Context `{P : Platform}.

(** [router.Message]; the container and its configuration are always
    present in the messages logspout delivers. *)
Record router_Message := {
  Container : docker_Container;
  Source : string;
  Data : string;
  Message_Time : Time;
}.

(** *** Observable events *)

Inductive log_arg :=
| LStr (s : string)
| LInt (z : Z)
| LErr (e : error).

Inductive event :=
| EvPrintln (v : list log_arg)
| EvPrintf (format : string) (v : list log_arg)
| EvDial (addr : string) (options : gmap string string) (err : option error)
| EvSleep (d : Z)
| EvNew (config : fluent_Config) (err : option error)
| EvPost (tag : string) (tm : Time) (record : gmap string string)
         (err : option error).

(** *** The effect monad: world passing, with the events emitted *)

Definition M (A : Type) : Type := World → A * World * list event.

#[export] Instance M_ret : MRet M := λ A a w, (a, w, []).

#[export] Instance M_bind : MBind M := λ A B f m w,
  let '(a, w1, t1) := m w in
  let '(b, w2, t2) := f a w1 in
  (b, w2, t1 ++ t2).

Definition emit (e : event) : M unit := λ w, (tt, w, [e]).

Definition log_Println (v : list log_arg) : M unit := emit (EvPrintln v).
Definition log_Printf (format : string) (v : list log_arg) : M unit :=
  emit (EvPrintf format v).

(** [time.Sleep(d)]; a zero or negative [d] returns at once. *)
Definition time_Sleep (d : Z) : M unit := emit (EvSleep d).

Definition Dial (t : AdapterTransport) (addr : string)
           (options : gmap string string) : M (option error) := λ w,
  let '(err, w') := AdapterTransport_Dial t addr options w in
  (err, w', [EvDial addr options err]).

Definition New (config : fluent_Config) : M (Fluent * option error) := λ w,
  let '(r, w') := fluent_New config w in
  (r, w', [EvNew config (snd r)]).

Definition PostWithTime (f : Fluent) (tag : string) (tm : Time)
           (record : gmap string string) : M (option error) := λ w,
  let '(err, w') := Fluent_PostWithTime f tag tm record w in
  (err, w', [EvPost tag tm record err]).

(** *** The process environment *)

Section Environ.
(** The environment: a variable that is not set has no entry. *)
Variable environ : gmap string string.

(** [os.Getenv]: the value, or the empty string when unset. *)
Definition os_Getenv (key : string) : string := default "" (environ !! key).

Definition getenv (key fallback : string) : string :=
  let value := os_Getenv key in
  if (String.length value =? 0)%nat then fallback else value.

Definition debug (v : list log_arg) : M unit :=
  if (os_Getenv "DEBUG" =? "true")%string then log_Println v else mret tt.

(** *** The adapter *)

Definition defaultProtocol : string := "tcp".
Definition defaultBufferLimit : Z := 1024 * 1024.
Definition defaultWriteTimeout : Z := 3.
Definition defaultRetryWait : Z := 1000.
Definition defaultMaxRetries : Z := 2 ^ 31 - 1.

Record Adapter := {
  writer : Fluent;
  tagPrefix : string;
  tagSuffixLabel : string;
}.

(** The tag [Stream] builds for a message (the "Set tag" lines). *)
Definition Stream_tag (ad : Adapter) (message : router_Message) : string :=
  let tag := "" in
  let tag := if (0 <? String.length (tagPrefix ad))%nat
             then tagPrefix ad else tag in
  let tagSuffix :=
    default "" (Labels (Config (Container message)) !! tagSuffixLabel ad) in
  let tagSuffix :=
    if (tagSuffix =? "")%string
    then Name (Container message) +:+ "-" +:+
         Hostname (Config (Container message))
    else tagSuffix in
  tag +:+ "." +:+ tagSuffix.

(** The record [Stream] builds for a message (the map literal). *)
Definition Stream_record (message : router_Message) : gmap string string :=
  <["log" := Data message]>
    (<["container_id" := ID (Container message)]>
       (<["container_name" := Name (Container message)]>
          (<["source" := Source message]> ∅))).

(** One turn of the [for message := range logstream] loop of
    [Adapter.Stream]. *)
Definition Stream_body (ad : Adapter) (message : router_Message) : M unit :=
  debug [LStr "container: "; LStr (ID (Container message));
         LStr (Name (Container message))];;
  let '(messageIsEmpty, err) :=
    regexp.MatchString regexp.blank_pattern (Data message) in
  if messageIsEmpty then
    debug [LStr "Skipping empty message!"]
  else
    let tag := Stream_tag ad message in
    let record := Stream_record message in
    err ← PostWithTime (writer ad) tag (Message_Time message) record;
    match err with
    | Some e => log_Println [LStr "fluentd-adapter PostWithTime Error: "; LErr e]
    | None => mret tt
    end.

(** What the producer does with the channel, in order. *)
Inductive chan_op :=
| ChanSend (message : router_Message)
| ChanClose.

(** Where [Stream] stands once the producer's operations are consumed:
    it has returned, or it waits for the next message. *)
Inductive stream_status := Returned | Receiving.

Fixpoint range_logstream (ad : Adapter) (logstream : list chan_op)
  : M stream_status :=
  match logstream with
  | [] => mret Receiving
  | ChanClose :: _ => mret Returned
  | ChanSend message :: rest =>
      Stream_body ad message;; range_logstream ad rest
  end.

Definition Stream (ad : Adapter) (logstream : list chan_op) : M stream_status :=
  debug [LStr "received message from container"];;
  range_logstream ad logstream.

(** *** Construction *)

(** How the dial loop of [NewAdapter] is left: by [return nil, err],
    or by reaching the statement after the loop. *)
Inductive loop_exit :=
| LoopReturn (e : error)
| LoopDone.

Definition newline : string := String (ascii_of_nat 10) "".

(** [for i := 0; i <= connMaxRetries; i++ { ... }], unrolled at most
    [fuel] times; [None] when the fuel does not suffice. *)
Fixpoint dial_loop (transport : AdapterTransport) (route : router_Route)
         (connMaxRetries connRetryWait : Z) (fuel : nat) (i : Z)
  : M (option loop_exit) :=
  if i <=? connMaxRetries then
    match fuel with
    | O => mret None
    | S fuel' =>
        err ← Dial transport (Address route) (Options route);
        match err with
        | Some e =>
            log_Printf ("Error: %v" +:+ newline) [LErr e];;
            if i =? connMaxRetries then mret (Some (LoopReturn e))
            else
              log_Printf ("Retrying in %d seconds..." +:+ newline)
                         [LInt connRetryWait];;
              time_Sleep (Int64.mul connRetryWait time_Second);;
              dial_loop transport route connMaxRetries connRetryWait
                        fuel' (Int64.add i 1)
        | None =>
            log_Println [LStr ("Connectivity successful to fluentd @ "
                               +:+ Address route)];;
            mret (Some LoopDone)
        end
    end
  else mret (Some LoopDone).

(** The part of [NewAdapter] after the dial loop: the fluent
    configuration and the writer. *)
Definition construct (route : router_Route)
  : M (option Adapter * option error) :=
  let '(host, port, err) := net_SplitHostPort (Address route) in
  let '(portNum, err) := strconv.Atoi port in
  match err with
  | Some e =>
      mret (None, Some (errors_Wrapf e ("Invalid fluentd-address "
                                        +:+ Address route)))
  | None =>
  let '(bufferLimit, err) :=
    strconv.Atoi (getenv "FLUENTD_BUFFER_LIMIT"
                         (strconv.Itoa defaultBufferLimit)) in
  match err with Some e => mret (None, Some e) | None =>
  let '(retryWait, err) :=
    strconv.Atoi (getenv "FLUENTD_RETRY_WAIT"
                         (strconv.Itoa defaultRetryWait)) in
  match err with Some e => mret (None, Some e) | None =>
  let '(maxRetries, err) :=
    strconv.Atoi (getenv "FLUENTD_MAX_RETRIES"
                         (strconv.Itoa defaultMaxRetries)) in
  match err with Some e => mret (None, Some e) | None =>
  let '(asyncConnect, err) :=
    strconv.ParseBool (getenv "FLUENTD_ASYNC_CONNECT" "false") in
  match err with Some e => mret (None, Some e) | None =>
  let '(subSecondPrecision, err) :=
    strconv.ParseBool (getenv "FLUENTD_SUBSECOND_PRECISION" "false") in
  match err with Some e => mret (None, Some e) | None =>
  let '(requestAck, err) :=
    strconv.ParseBool (getenv "FLUENTD_REQUEST_ACK" "false") in
  match err with Some e => mret (None, Some e) | None =>
  let '(writeTimeout, err) :=
    strconv.Atoi (getenv "FLUENTD_WRITE_TIMEOUT"
                         (strconv.Itoa defaultWriteTimeout)) in
  match err with Some e => mret (None, Some e) | None =>
  let fluentConfig := {|
    FluentHost := host;
    FluentPort := portNum;
    FluentNetwork := defaultProtocol;
    FluentSocketPath := "";
    BufferLimit := bufferLimit;
    RetryWait := retryWait;
    MaxRetry := maxRetries;
    Async := asyncConnect;
    SubSecondPrecision := subSecondPrecision;
    RequestAck := requestAck;
    WriteTimeout := Int64.mul writeTimeout time_Second;
  |} in
  '(writer, err) ← New fluentConfig;
  match err with
  | Some e =>
      mret (None, Some (errors_Wrapf e "Unable to create fluentd logger"))
  | None =>
      mret (Some {| writer := writer;
                    tagPrefix := getenv "TAG_PREFIX" "docker";
                    tagSuffixLabel := getenv "TAG_SUFFIX_LABEL" "" |},
            None)
  end end end end end end end end end.

(** [NewAdapter]: the adapter and the error it returns, or [None] when
    the dial loop was not unrolled far enough (it always is, see
    [NewAdapter_outcome]). *)
Definition NewAdapter (route : router_Route)
  : M (option (option Adapter * option error)) :=
  let '(transport, found) :=
    AdapterTransports_Lookup (Route_AdapterTransport route "tcp") in
  if negb found then
    mret (Some (None, Some (errors_New ("Unable to find adapter: "
                                        +:+ Route_Adapter route))))
  else
  let '(connMaxRetries, err) :=
    strconv.Atoi (getenv "CONNECTION_MAX_RETRIES" "10") in
  match err with Some e => mret (Some (None, Some e)) | None =>
  let '(connRetryWait, err) :=
    strconv.Atoi (getenv "CONNECTION_RETRY_WAIT" "1") in
  match err with Some e => mret (Some (None, Some e)) | None =>
  exit ← dial_loop transport route connMaxRetries connRetryWait
                   (Z.to_nat (connMaxRetries + 1)) 0;
  match exit with
  | None => mret None
  | Some (LoopReturn e) => mret (Some (None, Some e))
  | Some LoopDone => r ← construct route; mret (Some r)
  end end end.

End Environ.

End Adapter.

Arguments router_Message {P}.
Arguments event {P}.
Arguments Adapter {P}.
Arguments chan_op {P}.

(** ** Reading a trace *)

Section Traces.
Context `{P : Platform}.

(** A call of [PostWithTime] as the trace shows it. *)
Definition post_call : Type := string * Time * gmap string string * option error.

Definition posts (t : list event) : list post_call :=
  omap (λ e, match e with
             | EvPost tag tm record err => Some (tag, tm, record, err)
             | _ => None
             end) t.

(** The outcomes of the dial attempts, in order. *)
Definition dials (t : list event) : list (option error) :=
  omap (λ e, match e with EvDial _ _ err => Some err | _ => None end) t.

(** The durations slept, in nanoseconds, in order. *)
Definition sleeps (t : list event) : list Z :=
  omap (λ e, match e with EvSleep d => Some d | _ => None end) t.

(** The dial attempts and the sleeps, in the order they happen. *)
Definition is_probe_event (e : event) : bool :=
  match e with EvDial _ _ _ | EvSleep _ => true | _ => false end.

Definition probe_events (t : list event) : list event :=
  List.filter is_probe_event t.

(** The errors printed by [log.Println] and [log.Printf]. *)
Definition logged_errors (t : list event) : list error :=
  omap (λ e, match e with
             | EvPrintln v | EvPrintf _ v =>
                 last (omap (λ a, match a with LErr x => Some x | _ => None end) v)
             | _ => None
             end) t.
End Traces.

(** ** The words of the specification *)

Section Spec.
Context `{P : Platform}.

(** A string that is empty or made of white space only. *)
Fixpoint all_space (s : string) : bool :=
  match s with
  | EmptyString => true
  | String c s' => regexp.posix_space c && all_space s'
  end.

(** The suffix of a routing tag: the value of the configured label, or
    container name, dash, host name when the label is absent or empty. *)
Definition tag_suffix (label : string) (message : router_Message) : string :=
  match Labels (Config (Container message)) !! label with
  | Some v => if decide (v = "") then
                Name (Container message) +:+ "-" +:+
                Hostname (Config (Container message))
              else v
  | None => Name (Container message) +:+ "-" +:+
            Hostname (Config (Container message))
  end.

(** The messages of a stream that are not dropped as blank. *)
Definition accepted (messages : list router_Message) : list router_Message :=
  filter (λ m, all_space (Data m) = false) messages.

(** What [debug] prints. *)
Definition debug_events (environ : gmap string string) (v : list log_arg)
  : list event :=
  if (os_Getenv environ "DEBUG" =? "true")%string then [EvPrintln v] else [].

(** The events of one post: the call, and the log line when it fails. *)
Definition post_events (ad : Adapter) (m : router_Message) (err : option error)
  : list event :=
  EvPost (Stream_tag ad m) (Message_Time m) (Stream_record m) err ::
  match err with
  | Some e => [EvPrintln [LStr "fluentd-adapter PostWithTime Error: "; LErr e]]
  | None => []
  end.

(** The posts an adapter makes for the messages it accepts, from a given
    world: one per message, in order, whatever the outcome of each. *)
Fixpoint deliveries (ad : Adapter) (messages : list router_Message) (w : World)
  : list post_call :=
  match messages with
  | [] => []
  | m :: rest =>
      let '(err, w') :=
        Fluent_PostWithTime (writer ad) (Stream_tag ad m) (Message_Time m)
                            (Stream_record m) w in
      (Stream_tag ad m, Message_Time m, Stream_record m, err)
        :: deliveries ad rest w'
  end.

(** The arguments of a post, without its outcome. *)
Definition post_args (p : post_call) : string * Time * gmap string string := p.1.

Definition post_tag (p : post_call) : string := p.1.1.1.

(** The arguments [Stream] passes for a message. *)
Definition call_for (ad : Adapter) (m : router_Message)
  : string * Time * gmap string string :=
  (Stream_tag ad m, Message_Time m, Stream_record m).

(** What the sender answers when [Stream] posts a message, and the
    world after the call. *)
Definition post_outcome (ad : Adapter) (m : router_Message) (w : World)
  : option error * World :=
  Fluent_PostWithTime (writer ad) (Stream_tag ad m) (Message_Time m)
                      (Stream_record m) w.

(** The characters of a string. *)
Fixpoint chars (s : string) : list ascii :=
  match s with
  | EmptyString => []
  | String c s' => c :: chars s'
  end.

Definition space : ascii := ascii_of_nat 32.
Definition tab : ascii := ascii_of_nat 9.
Definition linefeed : ascii := ascii_of_nat 10.

(** The white-space characters: tab, line feed, vertical tab, form feed,
    carriage return and space. *)
Definition whitespace : list ascii :=
  [tab; linefeed; ascii_of_nat 11; ascii_of_nat 12; ascii_of_nat 13; space].

(** The failed attempts of a probe, each followed by its sleep. *)
Definition failed_attempts (route : router_Route) (wait : Z)
           (errs : list error) : list event :=
  errs ≫= λ e, [EvDial (Address route) (Options route) (Some e);
                EvSleep (wait * time_Second)].

(** The variables of the configuration that hold a number or a boolean. *)
Inductive var_kind := Numeric | Boolean.

Definition config_variables : list (string * var_kind) :=
  [("CONNECTION_MAX_RETRIES", Numeric);
   ("CONNECTION_RETRY_WAIT", Numeric);
   ("FLUENTD_BUFFER_LIMIT", Numeric);
   ("FLUENTD_RETRY_WAIT", Numeric);
   ("FLUENTD_MAX_RETRIES", Numeric);
   ("FLUENTD_ASYNC_CONNECT", Boolean);
   ("FLUENTD_SUBSECOND_PRECISION", Boolean);
   ("FLUENTD_REQUEST_ACK", Boolean);
   ("FLUENTD_WRITE_TIMEOUT", Numeric)].

(** A value that does not parse as its kind requires. *)
Definition malformed (kind : var_kind) (value : string) : Prop :=
  match kind with
  | Numeric => (strconv.Atoi value).2 ≠ None
  | Boolean => (strconv.ParseBool value).2 ≠ None
  end.

(** The value read for a variable, default included, parses. *)
Definition parses (environ : gmap string string) (kind : var_kind)
           (key fallback : string) : Prop :=
  match kind with
  | Numeric => (strconv.Atoi (getenv environ key fallback)).2 = None
  | Boolean => (strconv.ParseBool (getenv environ key fallback)).2 = None
  end.

Definition connection_parses (environ : gmap string string) : Prop :=
  parses environ Numeric "CONNECTION_MAX_RETRIES" "10" ∧
  parses environ Numeric "CONNECTION_RETRY_WAIT" "1".

Definition fluent_parses (environ : gmap string string) : Prop :=
  parses environ Numeric "FLUENTD_BUFFER_LIMIT" (strconv.Itoa defaultBufferLimit) ∧
  parses environ Numeric "FLUENTD_RETRY_WAIT" (strconv.Itoa defaultRetryWait) ∧
  parses environ Numeric "FLUENTD_MAX_RETRIES" (strconv.Itoa defaultMaxRetries) ∧
  parses environ Boolean "FLUENTD_ASYNC_CONNECT" "false" ∧
  parses environ Boolean "FLUENTD_SUBSECOND_PRECISION" "false" ∧
  parses environ Boolean "FLUENTD_REQUEST_ACK" "false" ∧
  parses environ Numeric "FLUENTD_WRITE_TIMEOUT" (strconv.Itoa defaultWriteTimeout).

(** The longest wait, in seconds, that a [time.Duration] can hold. *)
Definition max_wait_seconds : Z := 9223372036.

(** The connection probe in the words of the specification: up to
    [retries + 1] attempts, success returns at once, a failure is followed
    by a sleep of [wait] seconds and a retry, except on the last attempt
    where it is returned. *)
Fixpoint ConnectionProbe (transport : AdapterTransport) (route : router_Route)
         (wait : Z) (retries : nat) (w : World)
  : loop_exit * World * list event :=
  let '(err, w1) :=
    AdapterTransport_Dial transport (Address route) (Options route) w in
  match err with
  | None =>
      (LoopDone, w1,
       [EvDial (Address route) (Options route) None;
        EvPrintln [LStr ("Connectivity successful to fluentd @ "
                         +:+ Address route)]])
  | Some e =>
      match retries with
      | O =>
          (LoopReturn e, w1,
           [EvDial (Address route) (Options route) (Some e);
            EvPrintf ("Error: %v" +:+ newline) [LErr e]])
      | S retries' =>
          let '(exit, w2, t) :=
            ConnectionProbe transport route wait retries' w1 in
          (exit, w2,
           [EvDial (Address route) (Options route) (Some e);
            EvPrintf ("Error: %v" +:+ newline) [LErr e];
            EvPrintf ("Retrying in %d seconds..." +:+ newline) [LInt wait];
            EvSleep (wait * time_Second)] ++ t)
      end
  end.
End Spec.

(** ** A test double for the collaborators *)

Module Stub.

(** The text before and after the last colon, if there is one. *)
Fixpoint split_last_colon (s : string) : option (string * string) :=
  match s with
  | EmptyString => None
  | String c s' =>
      match split_last_colon s' with
      | Some (host, port) => Some (String c host, port)
      | None => if Ascii.eqb c ":" then Some ("", s') else None
      end
  end.

Definition connection_refused : error := ExternalError "connection refused".
Definition write_failed : error := ExternalError "write failed".

(** The world counts the dial attempts and the posts made so far;
    [dial_fails] and [post_fails] tell which of them fail. *)
Definition platform (dial_fails post_fails : nat → bool) : Platform := {|
  Time := Z;
  World := nat * nat;
  AdapterTransport := unit;
  Fluent := unit;
  Route_AdapterTransport := λ _ dfault, dfault;
  AdapterTransports_Lookup := λ name, (tt, String.eqb name "tcp");
  AdapterTransport_Dial := λ _ _ _ w,
    (if dial_fails (fst w) then Some connection_refused else None,
     (S (fst w), snd w));
  net_SplitHostPort := λ hostport,
    match split_last_colon hostport with
    | Some (host, port) => (host, port, None)
    | None => ("", "", Some (ExternalError "missing port in address"))
    end;
  fluent_New := λ _ w, ((tt, None), w);
  Fluent_PostWithTime := λ _ _ _ _ w,
    (if post_fails (snd w) then Some write_failed else None,
     (fst w, S (snd w)));
|}.

Definition never : nat → bool := λ _, false.
Definition always : nat → bool := λ _, true.

(** A platform whose collaborators never fail. *)
Definition reliable : Platform := platform never never.

(** A sender that fails on its second call only. *)
Definition second_post_fails : Platform := platform never (Nat.eqb 1).

(** A collector that refuses the first two connections. *)
Definition two_dials_fail : Platform := platform (λ n, n <? 2)%nat never.

(** A collector that refuses every connection. *)
Definition unreachable : Platform := platform always never.

Definition route : router_Route :=
  {| Route_Adapter := "fluentd"; Address := "collector:24224"; Options := ∅ |}.

Definition container (labels : gmap string string) : docker_Container :=
  {| ID := "3f4e9a"; Name := "web1";
     Config := {| Hostname := "host-a"; Labels := labels |} |}.

Definition message `{P : Platform} (labels : gmap string string)
           (data : string) (tm : Time) : router_Message :=
  {| Container := container labels; Source := "stdout";
     Data := data; Message_Time := tm |}.

Definition adapter `{P : Platform} (w : Fluent) (prefix label : string)
  : Adapter :=
  {| writer := w; tagPrefix := prefix; tagSuffixLabel := label |}.

(** The label of the routing example, and a line of white space. *)
Definition svc_api : gmap string string := {["svc" := "api"]}.
Definition blank_line : string := String space (String tab (String linefeed "")).

(** Three messages that are not blank, as the producer sends them
    before closing the channel. *)
Definition three_messages `{P : Platform} (t1 t2 t3 : Time) : list chan_op :=
  [ChanSend (message svc_api "started" t1);
   ChanSend (message svc_api "working" t2);
   ChanSend (message svc_api "stopped" t3);
   ChanClose].

(** A registry that knows no transport. *)
Definition no_transport : Platform := {|
  Time := Z;
  World := nat * nat;
  AdapterTransport := unit;
  Fluent := unit;
  Route_AdapterTransport := λ _ dfault, dfault;
  AdapterTransports_Lookup := λ _, (tt, false);
  AdapterTransport_Dial := λ _ _ _ w, (None, (S (fst w), snd w));
  net_SplitHostPort := λ _, ("", "", None);
  fluent_New := λ _ w, ((tt, None), w);
  Fluent_PostWithTime := λ _ _ _ _ w, (None, (fst w, S (snd w)));
|}.

(** A collector that refuses the first connection only. *)
Definition first_dial_fails : Platform := platform (Nat.eqb 0) never.


End Stub.

(** ** More ways to read a run *)

Section Observations.
Context `{P : Platform}.

(** The writers asked of [fluent.New], with the error each call returned. *)
Definition news (t : list event) : list (fluent_Config * option error) :=
  omap (λ e, match e with EvNew config err => Some (config, err) | _ => None end) t.

(** The variables [NewAdapter] reads. *)
Definition config_keys : list string :=
  ["CONNECTION_MAX_RETRIES"; "CONNECTION_RETRY_WAIT"; "FLUENTD_BUFFER_LIMIT";
   "FLUENTD_RETRY_WAIT"; "FLUENTD_MAX_RETRIES"; "FLUENTD_ASYNC_CONNECT";
   "FLUENTD_SUBSECOND_PRECISION"; "FLUENTD_REQUEST_ACK";
   "FLUENTD_WRITE_TIMEOUT"; "TAG_PREFIX"; "TAG_SUFFIX_LABEL"].

(** The variables that configure the fluent writer. *)
Definition fluent_keys : list string :=
  ["FLUENTD_BUFFER_LIMIT"; "FLUENTD_RETRY_WAIT"; "FLUENTD_MAX_RETRIES";
   "FLUENTD_ASYNC_CONNECT"; "FLUENTD_SUBSECOND_PRECISION";
   "FLUENTD_REQUEST_ACK"; "FLUENTD_WRITE_TIMEOUT"].

(** The writer configuration when no variable says otherwise: TCP, a
    buffer of one mebibyte, a retry wait of 1000 ms, 2147483647 retries, no
    asynchronous connect, no sub-second precision, no acknowledgement, a
    write timeout of three seconds. *)
Definition default_config (host : string) (port : Z) : fluent_Config := {|
  FluentHost := host;
  FluentPort := port;
  FluentNetwork := "tcp";
  FluentSocketPath := "";
  BufferLimit := 1048576;
  RetryWait := 1000;
  MaxRetry := 2147483647;
  Async := false;
  SubSecondPrecision := false;
  RequestAck := false;
  WriteTimeout := 3000000000;
|}.

(** The events of a list of posts when nothing else is printed: each
    call, followed by the line that reports its error if it has one. *)
Definition events_of_posts (ps : list post_call) : list event :=
  ps ≫= λ p,
    EvPost (post_tag p) p.1.1.2 p.1.2 p.2 ::
    match p.2 with
    | Some e => [EvPrintln [LStr "fluentd-adapter PostWithTime Error: "; LErr e]]
    | None => []
    end.

(** A channel operation that sends a blank message. *)
Definition is_blank_send (op : chan_op) : bool :=
  match op with
  | ChanSend m => all_space (Data m)
  | ChanClose => false
  end.

(** The producer's operations without the blank messages. *)
Definition drop_blank (ops : list chan_op) : list chan_op :=
  List.filter (λ op, negb (is_blank_send op)) ops.

(** The sender after the posts of some messages, one after the other. *)
Definition sender_after (ad : Adapter) (ms : list router_Message) (w : World)
  : World :=
  foldl (λ w0 m, (post_outcome ad m w0).2) w ms.
End Observations.

(** * Properties *)

(** ** The blank-line pattern *)

Section Regexp.
Import regexp.

(** A starred character class either stops here or takes one byte of the
    class and goes on. *)
Lemma matches_star_class cls b s k :
  matches (OpStar (OpCharClass cls)) b s k =
  k b s || match s with
           | EmptyString => false
           | String c s' => cls c && matches (OpStar (OpCharClass cls)) false s' k
           end.
Proof.
  destruct s as [|c s']; simpl.
  - reflexivity.
  - replace (String.length s' <? S (String.length s'))%nat with true
      by (symmetry; apply Nat.ltb_lt; lia).
    reflexivity.
Qed.

Lemma matches_blank_tail b s :
  matches (OpConcat (OpStar (OpCharClass posix_space)) OpEndText) b s
          (λ _ _, true) = all_space s.
Proof.
  revert b. induction s as [|c s' IH]; intros b.
  - reflexivity.
  - change (matches (OpConcat ?r1 ?r2) b ?s ?k)
      with (matches r1 b s (λ b' s'', matches r2 b' s'' k)).
    rewrite matches_star_class. cbn [matches orb all_space].
    f_equal. apply (IH false).
Qed.

Lemma search_blank_inside s : search blank_pattern false s = false.
Proof. induction s as [|c s' IH]; simpl in *; [reflexivity | exact IH]. Qed.

(** The pattern matches exactly the strings made of white space only. *)
Lemma MatchString_blank s :
  MatchString blank_pattern s = (all_space s, None).
Proof.
  unfold MatchString. f_equal.
  destruct s as [|c s']; [reflexivity|].
  cbn [search]. rewrite search_blank_inside, orb_false_r.
  unfold blank_pattern.
  change (matches (OpConcat OpBeginText ?r2) true ?s ?k)
    with (matches r2 true s k).
  apply matches_blank_tail.
Qed.
End Regexp.

(** ** Running [Stream] *)

Section StreamFacts.
Context `{P : Platform}.
Variable environ : gmap string string.

Lemma debug_run v w : debug environ v w = (tt, w, debug_events environ v).
Proof. unfold debug, debug_events. by destruct (_ =? _)%string. Qed.

Lemma posts_app (t1 t2 : list event) : posts (t1 ++ t2) = posts t1 ++ posts t2.
Proof. apply omap_app. Qed.

Lemma logged_errors_app (t1 t2 : list event) :
  logged_errors (t1 ++ t2) = logged_errors t1 ++ logged_errors t2.
Proof. apply omap_app. Qed.

Lemma posts_debug v : posts (debug_events environ v) = [].
Proof. unfold debug_events. by destruct (_ =? _)%string. Qed.

Lemma logged_errors_debug v :
  omap (λ a, match a with LErr x => Some x | _ => None end) v = [] →
  logged_errors (debug_events environ v) = [].
Proof.
  intros Hv. unfold debug_events. destruct (_ =? _)%string; [|done].
  cbn. by rewrite Hv.
Qed.

(** One turn of the loop, spelled out. *)
Lemma Stream_body_run ad m w :
  Stream_body environ ad m w =
  if all_space (Data m) then
    (tt, w,
     debug_events environ [LStr "container: "; LStr (ID (Container m));
                   LStr (Name (Container m))]
     ++ debug_events environ [LStr "Skipping empty message!"])
  else
    let '(err, w') :=
      Fluent_PostWithTime (writer ad) (Stream_tag ad m) (Message_Time m)
                          (Stream_record m) w in
    (tt, w',
     debug_events environ [LStr "container: "; LStr (ID (Container m));
                   LStr (Name (Container m))]
     ++ post_events ad m err).
Proof.
  unfold Stream_body, mbind, M_bind. rewrite debug_run.
  rewrite MatchString_blank. destruct (all_space (Data m)).
  - by rewrite debug_run.
  - unfold PostWithTime, post_events.
    destruct (Fluent_PostWithTime _ _ _ _ w) as [[e|] w']; reflexivity.
Qed.

Lemma posts_post_events ad m err :
  posts (post_events ad m err) =
  [(Stream_tag ad m, Message_Time m, Stream_record m, err)].
Proof. by destruct err. Qed.

Lemma logged_errors_post_events ad m err :
  logged_errors (post_events ad m err) = option_list err.
Proof. by destruct err. Qed.

Lemma posts_Stream_body ad m w :
  posts (Stream_body environ ad m w).2 =
  if all_space (Data m) then []
  else [(Stream_tag ad m, Message_Time m, Stream_record m,
         (Fluent_PostWithTime (writer ad) (Stream_tag ad m) (Message_Time m)
                              (Stream_record m) w).1)].
Proof.
  rewrite Stream_body_run. destruct (all_space (Data m)).
  - cbn [snd]. by rewrite posts_app, !posts_debug.
  - destruct (Fluent_PostWithTime _ _ _ _ w) as [err w']. cbn [snd fst].
    by rewrite posts_app, posts_debug, posts_post_events.
Qed.

Lemma accepted_cons m ms :
  accepted (m :: ms) = if all_space (Data m) then accepted ms else m :: accepted ms.
Proof.
  unfold accepted. rewrite filter_cons.
  destruct (all_space (Data m)); by case_decide.
Qed.

Lemma accepted_app ms1 ms2 : accepted (ms1 ++ ms2) = accepted ms1 ++ accepted ms2.
Proof. apply filter_app. Qed.

(** The range loop over messages followed by anything: the posts are the
    deliveries of the accepted messages, then those of the rest. *)
Lemma range_logstream_app ad ms rest w :
  ∃ w' t,
    range_logstream environ ad (map ChanSend ms ++ rest) w =
    (let '(st, w'', t') := range_logstream environ ad rest w' in
     (st, w'', t ++ t')) ∧
    posts t = deliveries ad (accepted ms) w ∧
    logged_errors t = omap snd (posts t).
Proof.
  revert w. induction ms as [|m ms IH]; intros w.
  - exists w, []. cbn. split; [|done].
    by destruct (range_logstream environ ad rest w) as [[st w''] t'].
  - cbn [map app range_logstream]. unfold mbind, M_bind.
    rewrite accepted_cons, Stream_body_run.
    destruct (all_space (Data m)).
    + destruct (IH w) as (w' & t & Hrun & Hposts & Hlog).
      exists w', ((debug_events environ [LStr "container: "; LStr (ID (Container m));
                                LStr (Name (Container m))]
                   ++ debug_events environ [LStr "Skipping empty message!"]) ++ t).
      rewrite Hrun.
      destruct (range_logstream environ ad rest w') as [[st w''] t'].
      split; [by rewrite app_assoc|].
      rewrite !posts_app, !posts_debug, !logged_errors_app.
      rewrite !logged_errors_debug by reflexivity.
      by cbn.
    + cbn [deliveries].
      destruct (Fluent_PostWithTime _ _ _ _ w) as [err w1].
      destruct (IH w1) as (w' & t & Hrun & Hposts & Hlog).
      exists w', ((debug_events environ [LStr "container: "; LStr (ID (Container m));
                                LStr (Name (Container m))]
                   ++ post_events ad m err) ++ t).
      rewrite Hrun.
      destruct (range_logstream environ ad rest w') as [[st w''] t'].
      split; [by rewrite app_assoc|].
      rewrite !posts_app, !posts_debug, !logged_errors_app.
      rewrite !logged_errors_debug by reflexivity.
      rewrite posts_post_events, logged_errors_post_events, Hlog, Hposts.
      cbn. by destruct err.
Qed.
End StreamFacts.

Section StreamRuns.
Context `{P : Platform}.
Variable environ : gmap string string.

Lemma Stream_run ad ops w :
  Stream environ ad ops w =
  let '(st, w', t) := range_logstream environ ad ops w in
  (st, w', debug_events environ [LStr "received message from container"] ++ t).
Proof.
  unfold Stream, mbind, M_bind. rewrite debug_run.
  by destruct (range_logstream environ ad ops w) as [[st w'] t].
Qed.

Lemma deliveries_args ad ms w :
  post_args <$> deliveries ad ms w = call_for ad <$> ms.
Proof.
  revert w. induction ms as [|m ms IH]; intros w; [done|].
  cbn [deliveries]. destruct (Fluent_PostWithTime _ _ _ _ w) as [err w'].
  cbn. f_equal. apply IH.
Qed.

(** A stream that is closed after [ms] (whatever the producer is said to
    do later): [Stream] returns, having posted the accepted messages. *)
Lemma Stream_closed ad ms later w :
  ∃ w' t,
    Stream environ ad (map ChanSend ms ++ ChanClose :: later) w
    = (Returned, w', t) ∧
    posts t = deliveries ad (accepted ms) w ∧
    logged_errors t = omap snd (posts t).
Proof.
  destruct (range_logstream_app environ ad ms (ChanClose :: later) w)
    as (w' & t & Hrun & Hposts & Hlog).
  exists w', (debug_events environ [LStr "received message from container"] ++ t).
  rewrite Stream_run, Hrun. cbn [range_logstream]. unfold mret, M_ret.
  rewrite app_nil_r. split; [done|].
  rewrite posts_app, posts_debug, logged_errors_app.
  by rewrite logged_errors_debug.
Qed.

(** A stream that is still open after [ms]: [Stream] has posted the
    accepted messages and waits. *)
Lemma Stream_open ad ms w :
  ∃ w' t,
    Stream environ ad (map ChanSend ms) w = (Receiving, w', t) ∧
    posts t = deliveries ad (accepted ms) w.
Proof.
  destruct (range_logstream_app environ ad ms [] w)
    as (w' & t & Hrun & Hposts & Hlog).
  rewrite app_nil_r in Hrun.
  exists w', (debug_events environ [LStr "received message from container"] ++ t).
  rewrite Stream_run, Hrun. cbn [range_logstream]. unfold mret, M_ret.
  rewrite app_nil_r. split; [done|].
  by rewrite posts_app, posts_debug.
Qed.

(** Nothing that follows the close is looked at. *)
Lemma range_logstream_after_close ad ms later w :
  range_logstream environ ad (map ChanSend ms ++ ChanClose :: later) w =
  range_logstream environ ad (map ChanSend ms ++ [ChanClose]) w.
Proof.
  revert w. induction ms as [|m ms IH]; intros w; [done|].
  cbn [map app range_logstream]. unfold mbind, M_bind.
  destruct (Stream_body environ ad m w) as [[[] w1] t1].
  by rewrite IH.
Qed.

Lemma Stream_after_close ad ms later w :
  Stream environ ad (map ChanSend ms ++ ChanClose :: later) w =
  Stream environ ad (map ChanSend ms ++ [ChanClose]) w.
Proof. by rewrite !Stream_run, range_logstream_after_close. Qed.

Lemma range_logstream_status ad ops w :
  (range_logstream environ ad ops w).1.1 = Returned ↔ ChanClose ∈ ops.
Proof.
  revert w. induction ops as [|[m|] ops IH]; intros w.
  - cbn. rewrite elem_of_nil. split; [done | tauto].
  - cbn [range_logstream]. unfold mbind, M_bind.
    destruct (Stream_body environ ad m w) as [[[] w1] t1].
    specialize (IH w1).
    destruct (range_logstream environ ad ops w1) as [[st w2] t2].
    cbn [fst] in *. rewrite IH, elem_of_cons.
    split; [auto | intros [?|?]; [discriminate | done]].
  - cbn. split; [intros _; apply list_elem_of_here | done].
Qed.

Lemma Stream_status ad ops w :
  (Stream environ ad ops w).1.1 = Returned ↔ ChanClose ∈ ops.
Proof.
  rewrite <- (range_logstream_status ad ops w), Stream_run.
  by destruct (range_logstream environ ad ops w) as [[st w'] t].
Qed.
End StreamRuns.

(** ** The claims about [Stream] *)

(** C8. A finite stream: once the producer closes the channel [Stream]
    returns (it has no error to return), and it has then made exactly one
    post per accepted message, in arrival order, and none for anything the
    producer might do after closing; before the channel is closed it has
    not returned, and it returns exactly when a close is among the
    producer's operations. *)
Theorem Stream_returns_when_closed `{P : Platform}
        (environ : gmap string string) (ad : Adapter)
        (ms : list router_Message) (w : World) :
  (∃ w' t,
     (∀ later, Stream environ ad (map ChanSend ms ++ ChanClose :: later) w
               = (Returned, w', t)) ∧
     post_args <$> posts t = call_for ad <$> accepted ms ∧
     length (posts t) = length (accepted ms)) ∧
  (Stream environ ad (map ChanSend ms) w).1.1 = Receiving ∧
  (∀ ops, (Stream environ ad ops w).1.1 = Returned ↔ ChanClose ∈ ops).
Proof.
  split; [|split].
  - destruct (Stream_closed environ ad ms [] w) as (w' & t & Hrun & Hposts & _).
    exists w', t. split; [|split].
    + intros later. by rewrite Stream_after_close.
    + by rewrite Hposts, deliveries_args.
    + rewrite Hposts. rewrite <- (length_fmap post_args), deliveries_args.
      by rewrite length_fmap.
  - destruct (Stream_open environ ad ms w) as (w' & t & Hrun & _).
    by rewrite Hrun.
  - intros ops. apply Stream_status.
Qed.

Section Whitespace.
Lemma posix_space_whitespace c :
  regexp.posix_space c = bool_decide (c ∈ whitespace).
Proof. by destruct c as [[] [] [] [] [] [] [] []]; vm_compute. Qed.

Lemma all_space_true s :
  all_space s = true ↔ Forall (λ c, c ∈ whitespace) (chars s).
Proof.
  induction s as [|c s IH]; cbn [all_space chars].
  - split; [constructor | done].
  - rewrite andb_true_iff, Forall_cons, IH, posix_space_whitespace.
    by rewrite bool_decide_eq_true.
Qed.

Lemma all_space_false s :
  all_space s = false ↔ Exists (λ c, c ∉ whitespace) (chars s).
Proof.
  induction s as [|c s IH]; cbn [all_space chars].
  - split; [done | by intros ?%Exists_nil].
  - rewrite andb_false_iff, Exists_cons, IH, posix_space_whitespace.
    by rewrite bool_decide_eq_false.
Qed.
End Whitespace.

(** C2. A message whose data is empty or made of white space only (spaces,
    tabs, line feeds and the other characters of the space class) is
    dropped: its turn of the loop makes no post and leaves the sender as it
    was.  A message with at least one other character is posted. *)
Theorem Stream_drops_blank_messages `{P : Platform}
        (environ : gmap string string) (ad : Adapter)
        (m : router_Message) (w : World) :
  (Forall (λ c, c ∈ whitespace) (chars (Data m)) →
   posts (Stream_body environ ad m w).2 = [] ∧
   (Stream_body environ ad m w).1.2 = w) ∧
  (Exists (λ c, c ∉ whitespace) (chars (Data m)) →
   ∃ err, posts (Stream_body environ ad m w).2 = [(call_for ad m, err)]).
Proof.
  split.
  - intros Hblank%all_space_true.
    rewrite posts_Stream_body, Stream_body_run, Hblank. done.
  - intros Hdata%all_space_false.
    rewrite posts_Stream_body, Hdata. eauto.
Qed.

(** C3. The record posted for a message that is not dropped has exactly
    the keys log, container_id, container_name and source, holding the
    message's data, container ID, container name and source as they are. *)
Theorem Stream_posts_four_field_record `{P : Platform}
        (environ : gmap string string) (ad : Adapter)
        (m : router_Message) (w : World) :
  all_space (Data m) = false →
  ∃ tag tm record err,
    posts (Stream_body environ ad m w).2 = [(tag, tm, record, err)] ∧
    dom record = {["log"; "container_id"; "container_name"; "source"]} ∧
    record !! "log" = Some (Data m) ∧
    record !! "container_id" = Some (ID (Container m)) ∧
    record !! "container_name" = Some (Name (Container m)) ∧
    record !! "source" = Some (Source m).
Proof.
  intros Hdata. rewrite posts_Stream_body, Hdata.
  eexists _, _, _, _. split; [reflexivity|].
  unfold Stream_record. split.
  - rewrite !dom_insert_L, dom_empty_L. set_solver.
  - by simplify_map_eq.
Qed.

Section Tag.
Context `{P : Platform}.

Lemma Stream_tag_suffix ad m :
  Stream_tag ad m =
  (if (0 <? String.length (tagPrefix ad))%nat then tagPrefix ad else "")
  +:+ "." +:+ tag_suffix (tagSuffixLabel ad) m.
Proof.
  unfold Stream_tag, tag_suffix.
  destruct (Labels (Config (Container m)) !! tagSuffixLabel ad) as [v|];
    cbn [default from_option id].
  - destruct (String.eqb_spec v ""); by case_decide.
  - reflexivity.
Qed.
End Tag.

(** C4. With a tag prefix that is not empty, the tag posted for a message
    that is not dropped is prefix, dot, suffix, the suffix being the value
    of the configured label, or container name, dash, host name when the
    label is absent or empty. *)
Theorem Stream_tag_with_prefix `{P : Platform}
        (environ : gmap string string) (ad : Adapter)
        (m : router_Message) (w : World) :
  tagPrefix ad ≠ "" →
  all_space (Data m) = false →
  ∃ tm record err,
    posts (Stream_body environ ad m w).2 =
    [(tagPrefix ad +:+ "." +:+ tag_suffix (tagSuffixLabel ad) m,
      tm, record, err)].
Proof.
  intros Hprefix Hdata. rewrite posts_Stream_body, Hdata, Stream_tag_suffix.
  destruct (tagPrefix ad) as [|c prefix]; [done|]. cbn [String.length Nat.ltb Nat.leb].
  eauto.
Qed.

Lemma Stream_drops_blank_messages_witness :
  let ad := Stub.adapter (P:=Stub.reliable) tt "docker" "svc" in
  let blank := Stub.message (P:=Stub.reliable) ∅ Stub.blank_line 1 in
  let hello := Stub.message (P:=Stub.reliable) ∅ "hello" 2 in
  (posts (Stream_body ∅ ad blank (0, 0)%nat).2 = [] ∧
   (Stream_body ∅ ad blank (0, 0)%nat).1.2 = (0, 0)%nat) ∧
  ∃ err, posts (Stream_body ∅ ad hello (0, 0)%nat).2 = [(call_for ad hello, err)].
Proof.
  intros ad blank hello. split.
  - apply (Stream_drops_blank_messages (P:=Stub.reliable) ∅ ad blank (0, 0)%nat).
    repeat constructor; compute_done.
  - apply (Stream_drops_blank_messages (P:=Stub.reliable) ∅ ad hello (0, 0)%nat).
    constructor. compute_done.
Defined.

Lemma Stream_posts_four_field_record_witness :
  let ad := Stub.adapter (P:=Stub.reliable) tt "docker" "svc" in
  let hello := Stub.message (P:=Stub.reliable) ∅ "hello" 2 in
  all_space (Data hello) = false ∧
  ∃ tag tm record err,
    posts (Stream_body ∅ ad hello (0, 0)%nat).2 = [(tag, tm, record, err)] ∧
    dom record = {["log"; "container_id"; "container_name"; "source"]} ∧
    record !! "log" = Some "hello" ∧
    record !! "container_id" = Some "3f4e9a" ∧
    record !! "container_name" = Some "web1" ∧
    record !! "source" = Some "stdout".
Proof.
  intros ad hello. split; [reflexivity|].
  apply (Stream_posts_four_field_record (P:=Stub.reliable) ∅ ad hello (0, 0)%nat).
  reflexivity.
Defined.

Lemma Stream_tag_with_prefix_witness :
  let ad := Stub.adapter (P:=Stub.reliable) tt "docker" "svc" in
  let labelled := Stub.message (P:=Stub.reliable) Stub.svc_api "hello" 1 in
  let plain := Stub.message (P:=Stub.reliable) ∅ "hello" 2 in
  (∃ tm record err,
     posts (Stream_body ∅ ad labelled (0, 0)%nat).2
     = [("docker.api", tm, record, err)]) ∧
  (∃ tm record err,
     posts (Stream_body ∅ ad plain (0, 0)%nat).2
     = [("docker.web1-host-a", tm, record, err)]).
Proof.
  intros ad labelled plain. split.
  - apply (Stream_tag_with_prefix (P:=Stub.reliable) ∅ ad labelled (0, 0)%nat);
      [discriminate | reflexivity].
  - apply (Stream_tag_with_prefix (P:=Stub.reliable) ∅ ad plain (0, 0)%nat);
      [discriminate | reflexivity].
Defined.

(** C1, as the code has it.  Whatever each post returns, [Stream] goes on:
    over a closed stream it posts every accepted message, in order, with
    the tag, time and record of that message, and it logs each error a post
    returned.  For three messages that are not blank and a sender that
    fails on the second only, post is called three times, once per message
    (the second call is the one that fails); its error is logged and the
    third message is still posted. *)
Theorem Stream_continues_after_failed_post `{P : Platform}
        (environ : gmap string string) (ad : Adapter) :
  (∀ ms w, ∃ w' t,
     Stream environ ad (map ChanSend ms ++ [ChanClose]) w = (Returned, w', t) ∧
     post_args <$> posts t = call_for ad <$> accepted ms ∧
     logged_errors t = omap snd (posts t)) ∧
  (∀ m1 m2 m3 w w1 w2 w3 e,
     all_space (Data m1) = false →
     all_space (Data m2) = false →
     all_space (Data m3) = false →
     post_outcome ad m1 w = (None, w1) →
     post_outcome ad m2 w1 = (Some e, w2) →
     post_outcome ad m3 w2 = (None, w3) →
     ∃ w' t,
       Stream environ ad [ChanSend m1; ChanSend m2; ChanSend m3; ChanClose] w
       = (Returned, w', t) ∧
       posts t = [(call_for ad m1, None); (call_for ad m2, Some e);
                  (call_for ad m3, None)] ∧
       logged_errors t = [e]).
Proof.
  split.
  - intros ms w.
    destruct (Stream_closed environ ad ms [] w) as (w' & t & Hrun & Hposts & Hlog).
    exists w', t. split; [exact Hrun|]. split; [|exact Hlog].
    by rewrite Hposts, deliveries_args.
  - intros m1 m2 m3 w w1 w2 w3 e H1 H2 H3 Hp1 Hp2 Hp3.
    destruct (Stream_closed environ ad [m1; m2; m3] [] w)
      as (w' & t & Hrun & Hposts & Hlog).
    exists w', t. split; [exact Hrun|].
    rewrite !accepted_cons, H1, H2, H3 in Hposts.
    unfold post_outcome in *. cbn [deliveries accepted filter] in Hposts.
    rewrite Hp1, Hp2, Hp3 in Hposts.
    rewrite Hlog, Hposts. done.
Qed.

Lemma Stream_continues_after_failed_post_witness :
  let ad := Stub.adapter (P:=Stub.second_post_fails) tt "docker" "svc" in
  ∃ w' t,
    Stream ∅ ad (Stub.three_messages (P:=Stub.second_post_fails) 1 2 3) (0, 0)%nat = (Returned, w', t) ∧
    posts t =
    [(call_for ad (Stub.message (P:=Stub.second_post_fails) Stub.svc_api "started" 1), None);
     (call_for ad (Stub.message (P:=Stub.second_post_fails) Stub.svc_api "working" 2), Some Stub.write_failed);
     (call_for ad (Stub.message (P:=Stub.second_post_fails) Stub.svc_api "stopped" 3), None)] ∧
    logged_errors t = [Stub.write_failed].
Proof.
  intros ad.
  apply (proj2 (Stream_continues_after_failed_post (P:=Stub.second_post_fails) ∅ ad))
    with (w := (0, 0)%nat) (w1 := (0, 1)%nat) (w2 := (0, 2)%nat) (w3 := (0, 3)%nat);
    reflexivity.
Defined.

(** Against C1 as written: three messages that are not blank, a sender
    that fails on the second only; post is called three times, not twice. *)
Lemma Stream_failed_post_is_a_call :
  let ad := Stub.adapter (P:=Stub.second_post_fails) tt "docker" "svc" in
  let t := (Stream ∅ ad (Stub.three_messages (P:=Stub.second_post_fails) 1 2 3) (0, 0)%nat).2 in
  snd <$> posts t = [None; Some Stub.write_failed; None] ∧
  length (posts t) = 3%nat ∧
  length (posts t) ≠ 2%nat.
Proof. vm_compute. repeat split. discriminate. Qed.

(** ** Numbers read from the environment *)

Section Numbers.
Import strconv.

Lemma is_digit_range c :
  is_digit c = true → 0 <= Z.of_nat (nat_of_ascii c) - 48 <= 9.
Proof.
  unfold is_digit. rewrite andb_true_iff, !Nat.leb_le. lia.
Qed.

Lemma parse_digits_lower n s un :
  parse_digits n s = inl un → 0 <= n → n <= un.
Proof.
  revert n. induction s as [|c s IH]; intros n Hs Hn; cbn in Hs.
  - injection Hs as <-. lia.
  - destruct (is_digit c) eqn:Hc; [|done]. apply is_digit_range in Hc.
    destruct (2 ^ 64 - 1 <? n * 10 + (Z.of_nat (nat_of_ascii c) - 48)); [done|].
    apply IH in Hs; lia.
Qed.

(** [Atoi] returns an [int]. *)
Lemma Atoi_in_range s : Int64.in_range (Atoi s).1.
Proof.
  unfold Atoi, Int64.in_range, Int64.min_int, Int64.max_int.
  destruct (split_sign s) as [neg body].
  destruct body as [|c body]; [cbn; lia|].
  destruct (parse_digits 0 (String c body)) as [un|[|]] eqn:Hd.
  - pose proof (parse_digits_lower 0 _ un Hd ltac:(lia)) as Hlow.
    destruct neg.
    + destruct (Z.ltb_spec (2 ^ 63) un); cbn [fst]; lia.
    + destruct (Z.leb_spec (2 ^ 63) un); cbn [fst]; lia.
  - cbn; lia.
  - destruct neg; cbn; lia.
Qed.

Lemma wrap_in_range z : Int64.in_range z → Int64.wrap z = z.
Proof.
  unfold Int64.in_range, Int64.min_int, Int64.max_int, Int64.wrap. intros Hz.
  rewrite Z.mod_small; lia.
Qed.
End Numbers.

(** ** The dial loop *)

Section DialLoop.
Context `{P : Platform}.
Variables (transport : AdapterTransport) (route : router_Route).

(** With no retry left to make, the loop does nothing. *)
Lemma dial_loop_negative connMaxRetries connRetryWait fuel w :
  connMaxRetries < 0 →
  dial_loop transport route connMaxRetries connRetryWait fuel 0 w
  = (Some LoopDone, w, []).
Proof.
  intros Hneg. destruct fuel; cbn [dial_loop];
    by destruct (Z.leb_spec 0 connMaxRetries); [lia|].
Qed.

(** The loop returns: [retries] more attempts are allowed after the
    [i]-th, and the fuel covers them. *)
Lemma dial_loop_returns_from connMaxRetries connRetryWait retries fuel i w :
  connMaxRetries <= Int64.max_int →
  0 <= i →
  i + Z.of_nat retries = connMaxRetries →
  (retries < fuel)%nat →
  ∃ exit w' t,
    dial_loop transport route connMaxRetries connRetryWait fuel i w
    = (Some exit, w', t).
Proof.
  intros Hmax. revert fuel i w.
  induction retries as [|retries IH]; intros fuel i w Hi Hsum Hfuel;
    (destruct fuel as [|fuel]; [lia|]); cbn [dial_loop];
    (destruct (Z.leb_spec i connMaxRetries); [|lia]);
    unfold mbind, M_bind, Dial;
    destruct (AdapterTransport_Dial _ _ _ w) as [[e|] w1]; cbn; eauto.
  - destruct (Z.eqb_spec i connMaxRetries); [cbn; eauto | lia].
  - destruct (Z.eqb_spec i connMaxRetries); [lia|].
    unfold Int64.add. rewrite wrap_in_range
      by (unfold Int64.in_range, Int64.min_int, Int64.max_int in *; lia).
    destruct (IH fuel (i + 1) w1) as (exit & w' & t & ->); [lia..|].
    cbn. eauto.
Qed.

Lemma dial_loop_returns connMaxRetries connRetryWait w :
  Int64.in_range connMaxRetries →
  ∃ exit w' t,
    dial_loop transport route connMaxRetries connRetryWait
              (Z.to_nat (connMaxRetries + 1)) 0 w
    = (Some exit, w', t).
Proof.
  intros [Hlo Hhi]. destruct (Z.lt_ge_cases connMaxRetries 0).
  - rewrite dial_loop_negative by done. eauto.
  - apply (dial_loop_returns_from _ _ (Z.to_nat connMaxRetries)); lia.
Qed.

(** The loop does what the specification's probe does, as long as the
    wait fits a [time.Duration]. *)
Lemma dial_loop_ConnectionProbe connMaxRetries connRetryWait retries fuel i w :
  connMaxRetries <= Int64.max_int →
  0 <= connRetryWait <= max_wait_seconds →
  0 <= i →
  i + Z.of_nat retries = connMaxRetries →
  (retries < fuel)%nat →
  dial_loop transport route connMaxRetries connRetryWait fuel i w =
  let '(exit, w', t) := ConnectionProbe transport route connRetryWait retries w in
  (Some exit, w', t).
Proof.
  intros Hmax Hwait. revert fuel i w.
  induction retries as [|retries IH]; intros fuel i w Hi Hsum Hfuel;
    (destruct fuel as [|fuel]; [lia|]); cbn [dial_loop ConnectionProbe];
    (destruct (Z.leb_spec i connMaxRetries); [|lia]);
    unfold mbind, M_bind, Dial;
    destruct (AdapterTransport_Dial _ _ _ w) as [[e|] w1]; cbn; try done.
  - by destruct (Z.eqb_spec i connMaxRetries); [|lia].
  - destruct (Z.eqb_spec i connMaxRetries); [lia|].
    unfold Int64.add, Int64.mul. rewrite !wrap_in_range
      by (unfold Int64.in_range, Int64.min_int, Int64.max_int,
                 max_wait_seconds, time_Second in *; lia).
    rewrite (IH fuel (i + 1) w1) by lia.
    by destruct (ConnectionProbe transport route connRetryWait retries w1)
      as [[exit w'] t].
Qed.
End DialLoop.

Section Probe.
Context `{P : Platform}.
Variables (transport : AdapterTransport) (route : router_Route).

(** The shape of a probe: some failed attempts, each followed by a
    sleep, then one last attempt that decides the outcome. *)
Lemma ConnectionProbe_shape wait retries w :
  ∃ errs last,
    probe_events (ConnectionProbe transport route wait retries w).2 =
    failed_attempts route wait errs ++ [EvDial (Address route) (Options route) last] ∧
    (length errs ≤ retries)%nat ∧
    match last with
    | None => (ConnectionProbe transport route wait retries w).1.1 = LoopDone
    | Some e =>
        (ConnectionProbe transport route wait retries w).1.1 = LoopReturn e ∧
        length errs = retries
    end.
Proof.
  revert w. induction retries as [|retries IH]; intros w; cbn [ConnectionProbe];
    destruct (AdapterTransport_Dial _ _ _ w) as [[e|] w1].
  - exists [], (Some e). by cbn.
  - exists [], None. cbn. repeat split; lia.
  - destruct (IH w1) as (errs & last & Hev & Hlen & Hlast).
    destruct (ConnectionProbe transport route wait retries w1) as [[exit w2] t].
    exists (e :: errs), last. cbn [snd fst] in *. split; [|split].
    + unfold probe_events in *. cbn [List.filter is_probe_event app].
      by rewrite Hev.
    + cbn. lia.
    + destruct last; [|done]. destruct Hlast as [-> <-]. done.
  - exists [], None. cbn. repeat split; lia.
Qed.

Lemma dials_probe_events (t : list event) : dials (probe_events t) = dials t.
Proof.
  unfold probe_events, dials. induction t as [|e t IH]; [done|].
  destruct e; cbn; by rewrite ?IH.
Qed.

Lemma sleeps_probe_events (t : list event) : sleeps (probe_events t) = sleeps t.
Proof.
  unfold probe_events, sleeps. induction t as [|e t IH]; [done|].
  destruct e; cbn; by rewrite ?IH.
Qed.

Lemma dials_failed_attempts wait errs :
  dials (failed_attempts route wait errs) = Some <$> errs.
Proof. induction errs as [|e errs IH]; [done|]. cbn. by rewrite <- IH. Qed.

Lemma sleeps_failed_attempts wait errs :
  sleeps (failed_attempts route wait errs) = replicate (length errs) (wait * time_Second).
Proof. induction errs as [|e errs IH]; [done|]. cbn. by rewrite <- IH. Qed.
End Probe.

(** C6, as the code has it, for a wait that fits a [time.Duration] (at
    most 9223372036 seconds).  The dial loop does what the specification's
    probe does: its attempts are some failures, each followed by a sleep of
    the wait, then one last attempt; there are at most [connMaxRetries + 1]
    attempts; a success is the last attempt and ends the loop; a failure of
    attempt [connMaxRetries + 1] is returned.  With no retry there is one
    attempt and no sleep, and its failure is returned.  With three retries
    and a dial that fails twice and then succeeds there are three attempts
    and two sleeps. *)
Theorem dial_loop_probes `{P : Platform}
        (transport : AdapterTransport) (route : router_Route) :
  (∀ connMaxRetries connRetryWait w,
     0 <= connMaxRetries <= Int64.max_int →
     0 <= connRetryWait <= max_wait_seconds →
     ∃ exit w' t,
       dial_loop transport route connMaxRetries connRetryWait
                 (Z.to_nat (connMaxRetries + 1)) 0 w = (Some exit, w', t) ∧
       ConnectionProbe transport route connRetryWait (Z.to_nat connMaxRetries) w
       = (exit, w', t) ∧
       Z.of_nat (length (dials t)) <= connMaxRetries + 1 ∧
       ∃ errs last,
         probe_events t =
         failed_attempts route connRetryWait errs
         ++ [EvDial (Address route) (Options route) last] ∧
         dials t = (Some <$> errs) ++ [last] ∧
         sleeps t = replicate (length errs) (connRetryWait * time_Second) ∧
         match last with
         | None => exit = LoopDone
         | Some e => exit = LoopReturn e ∧ Z.of_nat (length errs) = connMaxRetries
         end) ∧
  (∀ connRetryWait w,
     ∃ exit w' t,
       dial_loop transport route 0 connRetryWait 1 0 w = (Some exit, w', t) ∧
       length (dials t) = 1%nat ∧
       sleeps t = [] ∧
       ∀ e, (AdapterTransport_Dial transport (Address route) (Options route) w).1
            = Some e → exit = LoopReturn e) ∧
  (∀ connRetryWait w w1 w2 w3 e1 e2,
     0 <= connRetryWait <= max_wait_seconds →
     AdapterTransport_Dial transport (Address route) (Options route) w
     = (Some e1, w1) →
     AdapterTransport_Dial transport (Address route) (Options route) w1
     = (Some e2, w2) →
     AdapterTransport_Dial transport (Address route) (Options route) w2
     = (None, w3) →
     ∃ t,
       dial_loop transport route 3 connRetryWait 4 0 w = (Some LoopDone, w3, t) ∧
       dials t = [Some e1; Some e2; None] ∧
       sleeps t = [connRetryWait * time_Second; connRetryWait * time_Second]).
Proof.
  split; [|split].
  - intros connMaxRetries connRetryWait w [Hlo Hhi] Hwait.
    rewrite (dial_loop_ConnectionProbe _ _ _ _ (Z.to_nat connMaxRetries))
      by (done || lia).
    destruct (ConnectionProbe_shape transport route connRetryWait
                                    (Z.to_nat connMaxRetries) w)
      as (errs & last & Hev & Hlen & Hlast).
    destruct (ConnectionProbe transport route connRetryWait
                              (Z.to_nat connMaxRetries) w) as [[exit w'] t].
    cbn [fst snd] in *. exists exit, w', t.
    assert (Hdials : dials t = (Some <$> errs) ++ [last]).
    { rewrite <- dials_probe_events, Hev. unfold dials at 1. rewrite omap_app.
      fold (dials (failed_attempts route connRetryWait errs)).
      by rewrite dials_failed_attempts. }
    assert (Hsleeps : sleeps t
                      = replicate (length errs) (connRetryWait * time_Second)).
    { rewrite <- sleeps_probe_events, Hev. unfold sleeps at 1. rewrite omap_app.
      fold (sleeps (failed_attempts route connRetryWait errs)).
      rewrite sleeps_failed_attempts. cbn. by rewrite app_nil_r. }
    split; [done|]. split; [done|]. split.
    + rewrite Hdials, length_app, length_fmap. cbn. lia.
    + exists errs, last. do 3 (split; [done|]).
      destruct last as [e|]; [|done]. destruct Hlast as [-> Hn]. split; [done | lia].
  - intros connRetryWait w. cbn [dial_loop Z.leb Z.compare Z.eqb].
    unfold mbind, M_bind, Dial.
    destruct (AdapterTransport_Dial transport (Address route) (Options route) w)
      as [[e|] w1].
    + eexists _, _, _. split; [reflexivity|]. repeat split. by intros ? [= ->].
    + eexists _, _, _. split; [reflexivity|]. repeat split. done.
  - intros connRetryWait w w1 w2 w3 e1 e2 Hwait H1 H2 H3.
    rewrite (dial_loop_ConnectionProbe _ _ _ _ 3%nat)
      by (done || unfold Int64.max_int; lia).
    cbn [ConnectionProbe]. rewrite H1, H2, H3.
    eexists. split; [reflexivity|]. by cbn.
Qed.

Lemma dial_loop_probes_witness :
  ∃ t,
    dial_loop (P:=Stub.two_dials_fail) tt Stub.route 3 1 4 0 (0, 0)%nat
    = (Some LoopDone, (3, 0)%nat, t) ∧
    dials t = [Some Stub.connection_refused; Some Stub.connection_refused; None] ∧
    sleeps t = [1 * time_Second; 1 * time_Second].
Proof.
  apply (proj2 (proj2 (dial_loop_probes (P:=Stub.two_dials_fail) tt Stub.route)))
    with (w1 := (1, 0)%nat) (w2 := (2, 0)%nat);
    [unfold max_wait_seconds; lia | reflexivity..].
Defined.

(** Against C6 as written: a wait of 9223372037 seconds, which
    [CONNECTION_RETRY_WAIT] can hold, does not fit a [time.Duration]; the
    duration wraps to a negative one, and the loop does not sleep
    9223372037 seconds after the failed attempt. *)
Lemma dial_loop_wait_overflows :
  let environ : gmap string string :=
    <["CONNECTION_MAX_RETRIES" := "1"]> (<["CONNECTION_RETRY_WAIT" := "9223372037"]> ∅) in
  let t := (NewAdapter (P:=Stub.unreachable) environ Stub.route (0, 0)%nat).2 in
  strconv.Atoi (getenv environ "CONNECTION_RETRY_WAIT" "1") = (9223372037, None) ∧
  length (dials t) = 2%nat ∧
  sleeps t = [-9223372036709551616] ∧
  sleeps t ≠ [9223372037 * time_Second].
Proof. vm_compute. repeat split. discriminate. Qed.

(** ** The environment *)

Section Getenv.
Variable environ : gmap string string.

Lemma getenv_cases key fallback :
  getenv environ key fallback =
  if decide (os_Getenv environ key = "") then fallback
  else os_Getenv environ key.
Proof.
  unfold getenv. destruct (os_Getenv environ key) as [|c s]; by case_decide.
Qed.

(** A variable set to a value that is not empty reads as that value. *)
Lemma getenv_set key fallback value :
  environ !! key = Some value → value ≠ "" →
  getenv environ key fallback = value.
Proof.
  intros Hkey Hvalue. rewrite getenv_cases. unfold os_Getenv. rewrite Hkey.
  by case_decide.
Qed.

Lemma getenv_nonempty key fallback :
  fallback ≠ "" → getenv environ key fallback ≠ "".
Proof. intros Hf. rewrite getenv_cases. by case_decide. Qed.

(** Set to the empty string or not set at all: [os.Getenv] cannot tell. *)
Lemma os_Getenv_empty_unset key k :
  os_Getenv (<[key := ""]> environ) k = os_Getenv (delete key environ) k.
Proof.
  unfold os_Getenv. destruct (decide (key = k)) as [->|Hne].
  - by rewrite lookup_insert_eq, lookup_delete_eq.
  - by rewrite lookup_insert_ne, lookup_delete_ne.
Qed.
End Getenv.

(** ** Construction *)

Section Construction.
Context `{P : Platform}.
Variables (environ : gmap string string) (route : router_Route).

Ltac parse_number key :=
  let H := fresh "Hparse" in
  destruct (strconv.Atoi (getenv environ key _)) as [? [?|]] eqn:H.

Ltac parse_boolean key :=
  let H := fresh "Hparse" in
  destruct (strconv.ParseBool (getenv environ key _)) as [? [?|]] eqn:H.

Ltac returns_error :=
  unfold mret, M_ret; cbn [fst snd app];
  eexists _, _;
  first [ left; eexists; reflexivity
        | split; [| left; eexists; reflexivity]; reflexivity ].

Ltac parsed :=
  repeat match goal with
         | H : _ = (_, None) |- _ => apply (f_equal snd) in H; cbn [snd] in H
         end.

(** [construct] returns an error and no adapter, or an adapter and no
    error; it dials nothing; when it returns an adapter, the values of the
    fluent variables parsed and the tag prefix is the one read from the
    environment. *)
Lemma construct_outcome w :
  ∃ w' t,
    dials t = [] ∧
    ((∃ e, construct environ route w = ((None, Some e), w', t)) ∨
     (∃ ad, construct environ route w = ((Some ad, None), w', t) ∧
            tagPrefix ad = getenv environ "TAG_PREFIX" "docker" ∧
            fluent_parses environ)).
Proof.
  unfold construct, mret, M_ret, mbind, M_bind, New.
  destruct (net_SplitHostPort (Address route)) as [[host port] err0].
  destruct (strconv.Atoi port) as [portNum [e|]]; [returns_error|].
  parse_number "FLUENTD_BUFFER_LIMIT"; [returns_error|].
  parse_number "FLUENTD_RETRY_WAIT"; [returns_error|].
  parse_number "FLUENTD_MAX_RETRIES"; [returns_error|].
  parse_boolean "FLUENTD_ASYNC_CONNECT"; [returns_error|].
  parse_boolean "FLUENTD_SUBSECOND_PRECISION"; [returns_error|].
  parse_boolean "FLUENTD_REQUEST_ACK"; [returns_error|].
  parse_number "FLUENTD_WRITE_TIMEOUT"; [returns_error|].
  destruct (fluent_New _ w) as [[fl [e|]] w1]; cbn; [returns_error|].
  eexists w1, _. split; [|right; eexists; split; [reflexivity|]]; [done|].
  split; [done|]. parsed. unfold fluent_parses, parses. by repeat split.
Qed.

(** [NewAdapter] returns, with an error and no adapter or with an
    adapter and no error; an adapter means that the configuration
    parsed. *)
Lemma NewAdapter_outcome w :
  ∃ w' t,
    (∃ e, NewAdapter environ route w = (Some (None, Some e), w', t)) ∨
    (∃ ad, NewAdapter environ route w = (Some (Some ad, None), w', t) ∧
           tagPrefix ad = getenv environ "TAG_PREFIX" "docker" ∧
           connection_parses environ ∧ fluent_parses environ).
Proof.
  unfold NewAdapter.
  destruct (AdapterTransports_Lookup _) as [transport [|]]; cbn [negb];
    [|returns_error].
  destruct (strconv.Atoi (getenv environ "CONNECTION_MAX_RETRIES" "10"))
    as [connMaxRetries [e|]] eqn:Hmax; [returns_error|].
  destruct (strconv.Atoi (getenv environ "CONNECTION_RETRY_WAIT" "1"))
    as [connRetryWait [e|]] eqn:Hwait; [returns_error|].
  pose proof (Atoi_in_range (getenv environ "CONNECTION_MAX_RETRIES" "10")) as Hr.
  rewrite Hmax in Hr.
  destruct (dial_loop_returns transport route connMaxRetries connRetryWait w Hr)
    as (exit & w1 & t1 & Hloop).
  unfold mbind, M_bind. rewrite Hloop.
  destruct exit as [e|]; [returns_error|].
  destruct (construct_outcome w1) as (w2 & t2 & _ & [[e ->] | (ad & -> & Hp & Hf)]);
    [returns_error|]; unfold mret, M_ret.
  eexists w2, _. right. exists ad. split; [reflexivity|]. split; [done|].
  split; [|done]. unfold connection_parses, parses. by rewrite Hmax, Hwait.
Qed.

(** A variable of the configuration set to a value that is malformed and
    not empty keeps the configuration from parsing. *)
Lemma malformed_not_parses key kind value :
  (key, kind) ∈ config_variables →
  environ !! key = Some value → value ≠ "" → malformed kind value →
  ¬ (connection_parses environ ∧ fluent_parses environ).
Proof.
  intros Hin Hkey Hvalue Hbad [[Hc1 Hc2] (Hf1 & Hf2 & Hf3 & Hf4 & Hf5 & Hf6 & Hf7)].
  unfold config_variables in Hin.
  repeat (apply elem_of_cons in Hin as [[= -> ->] | Hin];
          [unfold parses, malformed in *;
           erewrite getenv_set in * by done; done |]).
  by apply elem_of_nil in Hin.
Qed.
End Construction.

(** ** The claims about [NewAdapter] and the environment *)

(** C7, as the code has it.  When one of the numeric or boolean variables
    of the configuration is set to a value that is not empty and does not
    parse, [NewAdapter] returns an error and no adapter.  (The empty string
    does not parse either, but [getenv] reads it as not set.) *)
Theorem NewAdapter_rejects_malformed_configuration `{P : Platform}
        (environ : gmap string string) (route : router_Route) (w : World)
        (key : string) (kind : var_kind) (value : string) :
  (key, kind) ∈ config_variables →
  environ !! key = Some value →
  value ≠ "" →
  malformed kind value →
  ∃ e w' t, NewAdapter environ route w = (Some (None, Some e), w', t).
Proof.
  intros Hin Hkey Hvalue Hbad.
  destruct (NewAdapter_outcome environ route w)
    as (w' & t & [[e Hrun] | (ad & Hrun & _ & Hc & Hf)]); [by eauto|].
  destruct (malformed_not_parses environ key kind value); auto.
Qed.

Lemma NewAdapter_rejects_malformed_configuration_witness :
  let environ : gmap string string := {["FLUENTD_REQUEST_ACK" := "yes"]} in
  malformed Boolean "yes" ∧
  ∃ e w' t,
    NewAdapter (P:=Stub.reliable) environ Stub.route (0, 0)%nat
    = (Some (None, Some e), w', t).
Proof.
  intros environ. split; [discriminate|].
  apply (NewAdapter_rejects_malformed_configuration
           (P:=Stub.reliable) environ Stub.route (0, 0)%nat
           "FLUENTD_REQUEST_ACK" Boolean "yes");
    [unfold config_variables; repeat constructor
    | reflexivity | discriminate | discriminate].
Defined.

(** Against C7 as written: [CONNECTION_MAX_RETRIES] set to the empty
    string, which [Atoi] rejects, is a variable set to a malformed value; yet
    [getenv] falls back to 10 and [NewAdapter] returns an adapter and no
    error. *)
Lemma NewAdapter_accepts_empty_value :
  let environ : gmap string string := {["CONNECTION_MAX_RETRIES" := ""]} in
  ("CONNECTION_MAX_RETRIES", Numeric) ∈ config_variables ∧
  environ !! "CONNECTION_MAX_RETRIES" = Some "" ∧
  malformed Numeric "" ∧
  (∃ ad w' t,
     NewAdapter (P:=Stub.reliable) environ Stub.route (0, 0)%nat
     = (Some (Some ad, None), w', t)) ∧
  ¬ (∃ e w' t,
       NewAdapter (P:=Stub.reliable) environ Stub.route (0, 0)%nat
       = (Some (None, Some e), w', t)).
Proof.
  intros environ. split; [unfold config_variables; repeat constructor|].
  split; [reflexivity|]. split; [discriminate|]. split.
  - eexists _, _, _. reflexivity.
  - intros (e & w' & t & Hrun). vm_compute in Hrun. discriminate Hrun.
Qed.

(** C9. When [CONNECTION_MAX_RETRIES] parses to a negative number the dial
    loop runs no turn: [NewAdapter] dials nothing and, the transport being
    found and the retry wait parsed, goes on with the construction of the
    fluent configuration as if the probe had succeeded. *)
Theorem NewAdapter_negative_retries_skip_probe `{P : Platform}
        (environ : gmap string string) (route : router_Route) (w : World)
        (connMaxRetries : Z) :
  strconv.Atoi (getenv environ "CONNECTION_MAX_RETRIES" "10")
  = (connMaxRetries, None) →
  connMaxRetries < 0 →
  (∀ transport connRetryWait w0,
     dial_loop transport route connMaxRetries connRetryWait
               (Z.to_nat (connMaxRetries + 1)) 0 w0 = (Some LoopDone, w0, [])) ∧
  dials (NewAdapter environ route w).2 = [] ∧
  (∀ transport connRetryWait,
     AdapterTransports_Lookup (Route_AdapterTransport route "tcp")
     = (transport, true) →
     strconv.Atoi (getenv environ "CONNECTION_RETRY_WAIT" "1")
     = (connRetryWait, None) →
     NewAdapter environ route w =
     let '(r, w', t) := construct environ route w in (Some r, w', t)).
Proof.
  intros Hmax Hneg. split; [|split].
  - intros. by apply dial_loop_negative.
  - unfold NewAdapter.
    destruct (AdapterTransports_Lookup _) as [transport [|]]; cbn [negb]; [|done].
    rewrite Hmax.
    destruct (strconv.Atoi (getenv environ "CONNECTION_RETRY_WAIT" "1"))
      as [connRetryWait [e|]]; [done|].
    unfold mbind, M_bind. rewrite dial_loop_negative by done.
    destruct (construct_outcome environ route w)
      as (w' & t & Hdials & [[e ->] | (ad & -> & _)]);
      unfold mret, M_ret; cbn [snd fst app]; by rewrite app_nil_r.
  - intros transport connRetryWait Hfound Hwait.
    unfold NewAdapter. rewrite Hfound, Hmax, Hwait. cbn [negb].
    unfold mbind, M_bind. rewrite dial_loop_negative by done.
    destruct (construct environ route w) as [[r w'] t].
    unfold mret, M_ret. cbn [app]. by rewrite app_nil_r.
Qed.

Lemma NewAdapter_negative_retries_skip_probe_witness :
  let environ : gmap string string := {["CONNECTION_MAX_RETRIES" := "-1"]} in
  dials (NewAdapter (P:=Stub.unreachable) environ Stub.route (0, 0)%nat).2 = [] ∧
  NewAdapter (P:=Stub.unreachable) environ Stub.route (0, 0)%nat =
  let '(r, w', t) := construct (P:=Stub.unreachable) environ Stub.route (0, 0)%nat in
  (Some r, w', t).
Proof.
  intros environ.
  destruct (NewAdapter_negative_retries_skip_probe
              (P:=Stub.unreachable) environ Stub.route (0, 0)%nat (-1))
    as (_ & Hdials & Hgo); [reflexivity | lia |].
  split; [exact Hdials|]. by apply (Hgo tt 1).
Defined.

Section Unset.
Context `{P : Platform}.

(** [NewAdapter] sees the environment through [getenv] only. *)
Lemma NewAdapter_getenv_ext (e1 e2 : gmap string string) route w :
  (∀ k fallback, getenv e1 k fallback = getenv e2 k fallback) →
  NewAdapter e1 route w = NewAdapter e2 route w.
Proof.
  intros Hext. unfold NewAdapter, construct. by rewrite !Hext.
Qed.
End Unset.

(** C10. A variable that is set to the empty string is read as if it were
    not set: [getenv] returns the fallback in both cases, no variable reads
    differently in the two environments, and [NewAdapter] does the same in
    both. *)
Theorem getenv_empty_means_unset `{P : Platform}
        (environ : gmap string string) (key : string) :
  (∀ fallback,
     getenv (<[key := ""]> environ) key fallback = fallback ∧
     getenv (delete key environ) key fallback = fallback) ∧
  (∀ k fallback,
     getenv (<[key := ""]> environ) k fallback
     = getenv (delete key environ) k fallback) ∧
  (∀ route w,
     NewAdapter (<[key := ""]> environ) route w
     = NewAdapter (delete key environ) route w).
Proof.
  assert (Hext : ∀ k fallback,
             getenv (<[key := ""]> environ) k fallback
             = getenv (delete key environ) k fallback).
  { intros k fallback. unfold getenv. by rewrite os_Getenv_empty_unset. }
  split; [|split].
  - intros fallback.
    assert (Hset : getenv (<[key := ""]> environ) key fallback = fallback).
    { unfold getenv, os_Getenv. by rewrite lookup_insert_eq. }
    split; [exact Hset | by rewrite <- Hext].
  - exact Hext.
  - intros route w. by apply NewAdapter_getenv_ext.
Qed.

(** C5, as the code has it.  With an empty tag prefix the dot is kept:
    the tag posted for a message that is not dropped is a dot followed by
    the suffix.  An adapter returned by [NewAdapter] never has an empty tag
    prefix: an unset or empty [TAG_PREFIX] reads as docker. *)
Theorem Stream_tag_without_prefix `{P : Platform}
        (environ : gmap string string) :
  (∀ ad m w,
     tagPrefix ad = "" →
     all_space (Data m) = false →
     ∃ tm record err,
       posts (Stream_body environ ad m w).2 =
       [("." +:+ tag_suffix (tagSuffixLabel ad) m, tm, record, err)]) ∧
  (∀ route w ad e w' t,
     NewAdapter environ route w = (Some (Some ad, e), w', t) →
     tagPrefix ad ≠ "").
Proof.
  split.
  - intros ad m w Hprefix Hdata.
    rewrite posts_Stream_body, Hdata, Stream_tag_suffix, Hprefix. cbn. eauto.
  - intros route w ad e w' t Hrun.
    destruct (NewAdapter_outcome environ route w)
      as (w2 & t2 & [[e2 Hrun2] | (ad2 & Hrun2 & Hprefix & _)]);
      rewrite Hrun2 in Hrun; [done|].
    injection Hrun as <- _ _ _. rewrite Hprefix.
    by apply getenv_nonempty.
Qed.

Lemma Stream_tag_without_prefix_witness :
  let environ : gmap string string := {["TAG_PREFIX" := ""]} in
  (∃ tm record err,
     posts (Stream_body (P:=Stub.reliable) environ (Stub.adapter (P:=Stub.reliable) tt "" "svc")
                        (Stub.message (P:=Stub.reliable) Stub.svc_api "hello" 1) (0, 0)%nat).2
     = [(".api", tm, record, err)]) ∧
  tagPrefix (Stub.adapter (P:=Stub.reliable) tt "docker" "") ≠ "".
Proof.
  intros environ. split.
  - apply (proj1 (Stream_tag_without_prefix (P:=Stub.reliable) environ)
                 (Stub.adapter (P:=Stub.reliable) tt "" "svc")
                 (Stub.message (P:=Stub.reliable) Stub.svc_api "hello" 1) (0, 0)%nat);
      reflexivity.
  - apply (proj2 (Stream_tag_without_prefix (P:=Stub.reliable) environ)
                 Stub.route (0, 0)%nat _ None (1, 0)%nat
                 (NewAdapter (P:=Stub.reliable) environ Stub.route (0, 0)%nat).2).
    reflexivity.
Defined.

(** Against C5 as written: an adapter with an empty tag prefix posts the
    tag made of a dot and the suffix. *)
Lemma Stream_empty_prefix_leading_dot :
  post_tag <$>
    posts (Stream_body (P:=Stub.reliable) ∅ (Stub.adapter (P:=Stub.reliable) tt "" "svc")
                       (Stub.message (P:=Stub.reliable) Stub.svc_api "hello" 1) (0, 0)%nat).2
  = [".api"].
Proof. reflexivity. Qed.

(** * Further properties of the adapter *)

(** ** The dial loop, whatever the wait *)

Section DialLoopShape.
Context `{P : Platform}.
Variables (transport : AdapterTransport) (route : router_Route).

Lemma news_app (t1 t2 : list event) : news (t1 ++ t2) = news t1 ++ news t2.
Proof. apply omap_app. Qed.

Lemma dials_app (t1 t2 : list event) : dials (t1 ++ t2) = dials t1 ++ dials t2.
Proof. apply omap_app. Qed.

Lemma sleeps_app (t1 t2 : list event) : sleeps (t1 ++ t2) = sleeps t1 ++ sleeps t2.
Proof. apply omap_app. Qed.

(** A run of the loop: some failed attempts, each followed by a sleep of
    the configured duration, then a last attempt, made from some world, that
    decides how the loop is left. *)
Lemma dial_loop_shape connMaxRetries connRetryWait retries fuel i w :
  connMaxRetries <= Int64.max_int →
  0 <= i →
  i + Z.of_nat retries = connMaxRetries →
  (retries < fuel)%nat →
  ∃ exit w' t errs wl,
    dial_loop transport route connMaxRetries connRetryWait fuel i w
    = (Some exit, w', t) ∧
    dials t = (Some <$> errs)
              ++ [(AdapterTransport_Dial transport (Address route)
                                         (Options route) wl).1] ∧
    w' = (AdapterTransport_Dial transport (Address route) (Options route) wl).2 ∧
    sleeps t = replicate (length errs) (Int64.mul connRetryWait time_Second) ∧
    (length errs ≤ retries)%nat ∧
    (length errs = 0%nat → wl = w) ∧
    match (AdapterTransport_Dial transport (Address route) (Options route) wl).1 with
    | None => exit = LoopDone
    | Some e => exit = LoopReturn e ∧ length errs = retries
    end ∧
    news t = [] ∧ posts t = [].
Proof.
  intros Hmax. revert fuel i w.
  induction retries as [|retries IH]; intros fuel i w Hi Hsum Hfuel;
    (destruct fuel as [|fuel]; [lia|]); cbn [dial_loop];
    (destruct (Z.leb_spec i connMaxRetries); [|lia]);
    unfold mbind, M_bind, Dial;
    destruct (AdapterTransport_Dial transport (Address route) (Options route) w)
      as [[e|] w1] eqn:Hdial.
  - destruct (Z.eqb_spec i connMaxRetries); [|lia].
    eexists _, _, _, [], w. rewrite Hdial. cbn. by repeat split.
  - eexists _, _, _, [], w. rewrite Hdial. cbn. repeat split; lia.
  - destruct (Z.eqb_spec i connMaxRetries); [lia|].
    unfold Int64.add. rewrite wrap_in_range
      by (unfold Int64.in_range, Int64.min_int, Int64.max_int in *; lia).
    destruct (IH fuel (i + 1) w1)
      as (exit & w' & t & errs & wl & Hrun & Hd & Hw & Hs & Hlen & _ & Hlast & Hn & Hp);
      [lia..|].
    unfold log_Printf, time_Sleep, emit, mbind, M_bind. rewrite Hrun.
    eexists exit, w', _, (e :: errs), wl. split; [reflexivity|].
    cbn [app].
    repeat split.
    + unfold dials in *. cbn. by rewrite Hd.
    + done.
    + unfold sleeps in *. cbn. by rewrite Hs.
    + cbn. lia.
    + cbn. lia.
    + destruct (AdapterTransport_Dial _ _ _ wl).1; [|done].
      destruct Hlast as [-> <-]. done.
    + unfold news in *. cbn. by rewrite Hn.
    + unfold posts in *. cbn. by rewrite Hp.
  - eexists _, _, _, [], w. rewrite Hdial. cbn. repeat split; lia.
Qed.
End DialLoopShape.

(** ** The two stages of [NewAdapter] *)

Section Stages.
Context `{P : Platform}.
Variables (environ : gmap string string) (route : router_Route).

(** [construct] fails before asking for a writer, or asks for one writer
    and fails with it, or returns the adapter around it. *)
Lemma construct_cases w :
  (∃ e, construct environ route w = ((None, Some e), w, [])) ∨
  (∃ config fl e w',
     fluent_parses environ ∧
     fluent_New config w = ((fl, Some e), w') ∧
     construct environ route w =
     ((None, Some (errors_Wrapf e "Unable to create fluentd logger")), w',
      [EvNew config (Some e)])) ∨
  (∃ config fl w',
     fluent_parses environ ∧
     fluent_New config w = ((fl, None), w') ∧
     FluentNetwork config = "tcp" ∧
     FluentSocketPath config = "" ∧
     construct environ route w =
     ((Some {| writer := fl;
               tagPrefix := getenv environ "TAG_PREFIX" "docker";
               tagSuffixLabel := getenv environ "TAG_SUFFIX_LABEL" "" |}, None),
      w', [EvNew config None])).
Proof.
  unfold construct, mret, M_ret, mbind, M_bind, New.
  destruct (net_SplitHostPort (Address route)) as [[host port] err0].
  destruct (strconv.Atoi port) as [portNum [e|]]; [by left; eauto|].
  destruct (strconv.Atoi (getenv environ "FLUENTD_BUFFER_LIMIT" _))
    as [? [?|]] eqn:H1; [by left; eauto|].
  destruct (strconv.Atoi (getenv environ "FLUENTD_RETRY_WAIT" _))
    as [? [?|]] eqn:H2; [by left; eauto|].
  destruct (strconv.Atoi (getenv environ "FLUENTD_MAX_RETRIES" _))
    as [? [?|]] eqn:H3; [by left; eauto|].
  destruct (strconv.ParseBool (getenv environ "FLUENTD_ASYNC_CONNECT" _))
    as [? [?|]] eqn:H4; [by left; eauto|].
  destruct (strconv.ParseBool (getenv environ "FLUENTD_SUBSECOND_PRECISION" _))
    as [? [?|]] eqn:H5; [by left; eauto|].
  destruct (strconv.ParseBool (getenv environ "FLUENTD_REQUEST_ACK" _))
    as [? [?|]] eqn:H6; [by left; eauto|].
  destruct (strconv.Atoi (getenv environ "FLUENTD_WRITE_TIMEOUT" _))
    as [? [?|]] eqn:H7; [by left; eauto|].
  assert (Hparses : fluent_parses environ).
  { unfold fluent_parses, parses. by rewrite H1, H2, H3, H4, H5, H6, H7. }
  match goal with |- context [fluent_New ?c w] => set (config := c) end.
  destruct (fluent_New config w) as [[fl [e|]] w'] eqn:Hnew; cbn [snd fst app].
  - right; left. by exists config, fl, e, w'.
  - right; right. by exists config, fl, w'.
Qed.

Lemma construct_quiet w :
  dials (construct environ route w).2 = [] ∧
  sleeps (construct environ route w).2 = [] ∧
  posts (construct environ route w).2 = [] ∧
  (length (news (construct environ route w).2) ≤ 1)%nat.
Proof.
  destruct (construct_cases w)
    as [[e ->] | [(c & fl & e & w' & _ & _ & ->) | (c & fl & w' & _ & _ & _ & _ & ->)]];
    cbn; repeat split; lia.
Qed.

(** [NewAdapter] fails before it dials, or runs the dial loop and then
    either returns the loop's error or goes on with [construct]. *)
Lemma NewAdapter_stages w :
  (∃ e, NewAdapter environ route w = (Some (None, Some e), w, [])) ∨
  (∃ transport n wait exit w1 t1,
     AdapterTransports_Lookup (Route_AdapterTransport route "tcp")
     = (transport, true) ∧
     strconv.Atoi (getenv environ "CONNECTION_MAX_RETRIES" "10") = (n, None) ∧
     strconv.Atoi (getenv environ "CONNECTION_RETRY_WAIT" "1") = (wait, None) ∧
     dial_loop transport route n wait (Z.to_nat (n + 1)) 0 w = (Some exit, w1, t1) ∧
     NewAdapter environ route w =
     match exit with
     | LoopReturn e => (Some (None, Some e), w1, t1)
     | LoopDone =>
         let '(r, w2, t2) := construct environ route w1 in (Some r, w2, t1 ++ t2)
     end).
Proof.
  unfold NewAdapter.
  destruct (AdapterTransports_Lookup _) as [transport [|]] eqn:Hfound; cbn [negb];
    [|by left; eauto].
  destruct (strconv.Atoi (getenv environ "CONNECTION_MAX_RETRIES" "10"))
    as [n [e|]] eqn:Hmax; [by left; eauto|].
  destruct (strconv.Atoi (getenv environ "CONNECTION_RETRY_WAIT" "1"))
    as [wait [e|]] eqn:Hwait; [by left; eauto|].
  pose proof (Atoi_in_range (getenv environ "CONNECTION_MAX_RETRIES" "10")) as Hr.
  rewrite Hmax in Hr.
  destruct (dial_loop_returns transport route n wait w Hr)
    as (exit & w1 & t1 & Hloop).
  right. exists transport, n, wait, exit, w1, t1.
  do 4 (split; [done|]).
  unfold mbind, M_bind, mret, M_ret. rewrite Hloop.
  destruct exit as [e|]; [by rewrite app_nil_r|].
  destruct (construct environ route w1) as [[r w2] t2].
  by rewrite app_nil_r.
Qed.
End Stages.

Section StagesFacts.
Context `{P : Platform}.
Variables (environ : gmap string string) (route : router_Route).

(** The dial loop asks for no writer and posts nothing. *)
Lemma dial_loop_quiet transport n wait fuel i w :
  news (dial_loop transport route n wait fuel i w).2 = [] ∧
  posts (dial_loop transport route n wait fuel i w).2 = [].
Proof.
  revert i w. induction fuel as [|fuel IH]; intros i w; cbn [dial_loop];
    destruct (i <=? n); try done.
  unfold mbind, M_bind, Dial, log_Printf, log_Println, time_Sleep, emit, mret, M_ret.
  destruct (AdapterTransport_Dial _ _ _ w) as [[e|] w1]; [|done].
  destruct (i =? n); [done|].
  destruct (IH (Int64.add i 1) w1) as [Hn Hp].
  unfold mbind, M_bind.
  destruct (dial_loop transport route n wait fuel (Int64.add i 1) w1) as [[x w2] t].
  cbn [snd fst app] in *. unfold news, posts in *. cbn. by rewrite Hn, Hp.
Qed.

(** With the transport found and the two connection variables parsed,
    [NewAdapter] is the dial loop followed, if it is left normally, by
    [construct]. *)
Lemma NewAdapter_run w transport n wait :
  AdapterTransports_Lookup (Route_AdapterTransport route "tcp")
  = (transport, true) →
  strconv.Atoi (getenv environ "CONNECTION_MAX_RETRIES" "10") = (n, None) →
  strconv.Atoi (getenv environ "CONNECTION_RETRY_WAIT" "1") = (wait, None) →
  ∃ exit w1 t1,
    dial_loop transport route n wait (Z.to_nat (n + 1)) 0 w = (Some exit, w1, t1) ∧
    NewAdapter environ route w =
    match exit with
    | LoopReturn e => (Some (None, Some e), w1, t1)
    | LoopDone =>
        let '(r, w2, t2) := construct environ route w1 in (Some r, w2, t1 ++ t2)
    end.
Proof.
  intros Hfound Hmax Hwait.
  pose proof (Atoi_in_range (getenv environ "CONNECTION_MAX_RETRIES" "10")) as Hr.
  rewrite Hmax in Hr.
  destruct (dial_loop_returns transport route n wait w Hr)
    as (exit & w1 & t1 & Hloop).
  exists exit, w1, t1. split; [done|].
  unfold NewAdapter. rewrite Hfound, Hmax, Hwait. cbn [negb].
  unfold mbind, M_bind, mret, M_ret. rewrite Hloop.
  destruct exit as [e|]; [by rewrite app_nil_r|].
  destruct (construct environ route w1) as [[r w2] t2].
  by rewrite app_nil_r.
Qed.
End StagesFacts.

(** ** What [NewAdapter] does, case by case *)

(** X1. When the registry has no transport for the route, [NewAdapter]
    returns the error that names the route's adapter, and it has done
    nothing else: no variable decides otherwise, nothing is dialled and the
    world is as it was. *)
Theorem NewAdapter_unknown_transport `{P : Platform}
        (environ : gmap string string) (route : router_Route) (w : World)
        (transport : AdapterTransport) :
  AdapterTransports_Lookup (Route_AdapterTransport route "tcp")
  = (transport, false) →
  NewAdapter environ route w =
  (Some (None, Some (errors_New ("Unable to find adapter: "
                                 +:+ Route_Adapter route))), w, []).
Proof. intros Hfound. unfold NewAdapter. by rewrite Hfound. Qed.

Lemma NewAdapter_unknown_transport_witness :
  NewAdapter (P:=Stub.no_transport) {["CONNECTION_MAX_RETRIES" := "many"]}
             Stub.route (0, 0)%nat =
  (Some (None, Some (errors_New "Unable to find adapter: fluentd")),
   (0, 0)%nat, []).
Proof.
  apply (NewAdapter_unknown_transport (P:=Stub.no_transport) _ Stub.route
                                      (0, 0)%nat tt).
  reflexivity.
Defined.

(** X2. When every dial fails (the transport being found, the connection
    variables parsed and the retries not negative), [NewAdapter] dials
    [connMaxRetries + 1] times, sleeps [connMaxRetries] times, returns the
    error of the last attempt and no adapter, and never asks for a writer. *)
Theorem NewAdapter_gives_up_when_unreachable `{P : Platform}
        (environ : gmap string string) (route : router_Route) (w : World)
        (transport : AdapterTransport) (connMaxRetries connRetryWait : Z) :
  AdapterTransports_Lookup (Route_AdapterTransport route "tcp")
  = (transport, true) →
  strconv.Atoi (getenv environ "CONNECTION_MAX_RETRIES" "10")
  = (connMaxRetries, None) →
  strconv.Atoi (getenv environ "CONNECTION_RETRY_WAIT" "1")
  = (connRetryWait, None) →
  0 <= connMaxRetries →
  (∀ w0, (AdapterTransport_Dial transport (Address route) (Options route) w0).1
         ≠ None) →
  ∃ e w' t,
    NewAdapter environ route w = (Some (None, Some e), w', t) ∧
    Z.of_nat (length (dials t)) = connMaxRetries + 1 ∧
    last (dials t) = Some (Some e) ∧
    sleeps t = replicate (Z.to_nat connMaxRetries)
                         (Int64.mul connRetryWait time_Second) ∧
    news t = [].
Proof.
  intros Hfound Hmax Hwait Hpos Hfail.
  destruct (NewAdapter_run environ route w transport _ _ Hfound Hmax Hwait)
    as (exit & w1 & t1 & Hloop & Hrun).
  pose proof (Atoi_in_range (getenv environ "CONNECTION_MAX_RETRIES" "10")) as Hr.
  rewrite Hmax in Hr.
  destruct (dial_loop_shape transport route connMaxRetries connRetryWait
                            (Z.to_nat connMaxRetries)
                            (Z.to_nat (connMaxRetries + 1)) 0 w)
    as (x & w' & t & errs & wl & Hrun' & Hd & _ & Hs & Hlen & _ & Hlast & Hn & _);
    [apply Hr | lia..|].
  rewrite Hloop in Hrun'. injection Hrun' as <- <- <-.
  specialize (Hfail wl).
  destruct (AdapterTransport_Dial transport (Address route) (Options route) wl).1
    as [e|]; [|done].
  destruct Hlast as [-> Hfull].
  exists e, w1, t1. split; [done|]. rewrite Hd, Hs, Hfull.
  rewrite length_app, length_fmap, last_snoc. cbn. repeat split; [lia | done].
Qed.

Lemma NewAdapter_gives_up_when_unreachable_witness :
  ∃ e w' t,
    NewAdapter (P:=Stub.unreachable) {["CONNECTION_MAX_RETRIES" := "2"]}
               Stub.route (0, 0)%nat = (Some (None, Some e), w', t) ∧
    Z.of_nat (length (dials t)) = 2 + 1 ∧
    last (dials t) = Some (Some e) ∧
    sleeps t = replicate (Z.to_nat 2) (Int64.mul 1 time_Second) ∧
    news t = [].
Proof.
  apply (NewAdapter_gives_up_when_unreachable
           (P:=Stub.unreachable) _ Stub.route (0, 0)%nat tt 2 1);
    [reflexivity | reflexivity | reflexivity | lia | discriminate].
Defined.

(** X3. When the first dial succeeds (the transport being found, the
    connection variables parsed and the retries not negative), [NewAdapter]
    dials once, logs the success, does not sleep, and goes on with the
    construction from the world the dial left. *)
Theorem NewAdapter_connects_at_first_attempt `{P : Platform}
        (environ : gmap string string) (route : router_Route) (w w1 : World)
        (transport : AdapterTransport) (connMaxRetries connRetryWait : Z) :
  AdapterTransports_Lookup (Route_AdapterTransport route "tcp")
  = (transport, true) →
  strconv.Atoi (getenv environ "CONNECTION_MAX_RETRIES" "10")
  = (connMaxRetries, None) →
  strconv.Atoi (getenv environ "CONNECTION_RETRY_WAIT" "1")
  = (connRetryWait, None) →
  0 <= connMaxRetries →
  AdapterTransport_Dial transport (Address route) (Options route) w = (None, w1) →
  NewAdapter environ route w =
  let '(r, w2, t2) := construct environ route w1 in
  (Some r, w2,
   [EvDial (Address route) (Options route) None;
    EvPrintln [LStr ("Connectivity successful to fluentd @ " +:+ Address route)]]
   ++ t2).
Proof.
  intros Hfound Hmax Hwait Hpos Hdial.
  destruct (NewAdapter_run environ route w transport _ _ Hfound Hmax Hwait)
    as (exit & w' & t1 & Hloop & ->).
  replace (Z.to_nat (connMaxRetries + 1)) with (S (Z.to_nat connMaxRetries))
    in Hloop by lia.
  cbn [dial_loop] in Hloop.
  destruct (Z.leb_spec 0 connMaxRetries); [|lia].
  unfold mbind, M_bind, Dial in Hloop. rewrite Hdial in Hloop.
  by injection Hloop as <- <- <-.
Qed.

Lemma NewAdapter_connects_at_first_attempt_witness :
  NewAdapter (P:=Stub.reliable) ∅ Stub.route (0, 0)%nat =
  let '(r, w2, t2) := construct (P:=Stub.reliable) ∅ Stub.route (1, 0)%nat in
  (Some r, w2,
   [EvDial "collector:24224" ∅ None;
    EvPrintln [LStr "Connectivity successful to fluentd @ collector:24224"]]
   ++ t2).
Proof.
  apply (NewAdapter_connects_at_first_attempt
           (P:=Stub.reliable) ∅ Stub.route (0, 0)%nat (1, 0)%nat tt 10 1);
    [reflexivity | reflexivity | reflexivity | lia | reflexivity].
Defined.

(** X4. In every run of [NewAdapter]: either nothing is dialled and there
    is no sleep, or there is exactly one sleep fewer than dials; there are at
    most [connMaxRetries + 1] dials, and none when that is negative; every
    sleep has the duration computed from [CONNECTION_RETRY_WAIT]; and every
    dial but the last one failed, so nothing is dialled after a success. *)
Theorem NewAdapter_dials_and_sleeps `{P : Platform}
        (environ : gmap string string) (route : router_Route) (w : World) :
  let t := (NewAdapter environ route w).2 in
  ((dials t = [] ∧ sleeps t = []) ∨ length (dials t) = S (length (sleeps t))) ∧
  Z.of_nat (length (dials t))
  <= Z.max 0 ((strconv.Atoi (getenv environ "CONNECTION_MAX_RETRIES" "10")).1 + 1) ∧
  Forall (λ d, d = Int64.mul
                     (strconv.Atoi (getenv environ "CONNECTION_RETRY_WAIT" "1")).1
                     time_Second) (sleeps t) ∧
  (∀ i, (S i < length (dials t))%nat → ∃ e, dials t !! i = Some (Some e)).
Proof.
  intros t. subst t.
  cut (length (sleeps (NewAdapter environ route w).2)
       = pred (length (dials (NewAdapter environ route w).2)) ∧
       Z.of_nat (length (dials (NewAdapter environ route w).2))
       <= Z.max 0 ((strconv.Atoi (getenv environ "CONNECTION_MAX_RETRIES" "10")).1 + 1) ∧
       Forall (λ d, d = Int64.mul
                          (strconv.Atoi (getenv environ "CONNECTION_RETRY_WAIT" "1")).1
                          time_Second) (sleeps (NewAdapter environ route w).2) ∧
       (∀ i, (S i < length (dials (NewAdapter environ route w).2))%nat →
             ∃ e, dials (NewAdapter environ route w).2 !! i = Some (Some e))).
  { intros (Hcount & Hrest). split; [|exact Hrest].
    destruct (dials (NewAdapter environ route w).2) as [|d ds].
    - left. split; [done|].
      by destruct (sleeps (NewAdapter environ route w).2).
    - right. cbn in *. by rewrite Hcount. }
  destruct (NewAdapter_stages environ route w)
    as [[e ->] | (tr & n & wait & exit & w1 & t1 & _ & Hmax & Hwait & Hloop & ->)].
  { cbn. repeat split; [lia | constructor | intros; lia]. }
  rewrite Hmax, Hwait. cbn [fst].
  pose proof (Atoi_in_range (getenv environ "CONNECTION_MAX_RETRIES" "10")) as Hr.
  rewrite Hmax in Hr. cbn [fst] in Hr.
  assert (Ht1 : length (sleeps t1) = pred (length (dials t1)) ∧
                Z.of_nat (length (dials t1)) <= Z.max 0 (n + 1) ∧
                Forall (λ d, d = Int64.mul wait time_Second) (sleeps t1) ∧
                (∀ i, (S i < length (dials t1))%nat →
                      ∃ e, dials t1 !! i = Some (Some e))).
  { destruct (Z.lt_ge_cases n 0) as [Hneg|Hpos].
    - rewrite dial_loop_negative in Hloop by done. injection Hloop as _ _ <-.
      cbn. repeat split; [lia | constructor | intros; lia].
    - destruct (dial_loop_shape tr route n wait (Z.to_nat n) (Z.to_nat (n + 1)) 0 w)
        as (x & w' & t & errs & wl & Hrun & Hd & _ & Hs & Hlen & _);
        [apply Hr | lia..|].
      rewrite Hloop in Hrun. injection Hrun as _ _ <-.
      rewrite Hd, Hs, length_app, length_fmap, length_replicate. cbn.
      repeat split; [lia | lia | by apply Forall_replicate |].
      intros i Hi. rewrite lookup_app_l by (rewrite length_fmap; lia).
      rewrite list_lookup_fmap.
      destruct (errs !! i) as [e|] eqn:He; [by exists e|].
      apply lookup_ge_None in He. lia. }
  assert (Hsame : dials (match exit with
                         | LoopReturn e => (Some (None, Some e), w1, t1)
                         | LoopDone =>
                             let '(r, w2, t2) := construct environ route w1 in
                             (Some r, w2, t1 ++ t2)
                         end).2 = dials t1 ∧
                  sleeps (match exit with
                          | LoopReturn e => (Some (None, Some e), w1, t1)
                          | LoopDone =>
                              let '(r, w2, t2) := construct environ route w1 in
                              (Some r, w2, t1 ++ t2)
                          end).2 = sleeps t1).
  { destruct exit as [e|]; [done|].
    destruct (construct_quiet environ route w1) as (Hd & Hs & _).
    destruct (construct environ route w1) as [[r w2] t2]. cbn [snd] in *.
    by rewrite dials_app, sleeps_app, Hd, Hs, !app_nil_r. }
  destruct Hsame as [-> ->]. exact Ht1.
Qed.



(** X6. With none of the variables of the fluent writer set (or all of
    them empty) and a port that parses, the construction asks for exactly
    one writer, configured with the host and port of the address and the
    defaults: TCP, no socket path, a buffer of 1048576 bytes, a retry wait
    of 1000, 2147483647 retries, the three flags off and a write timeout of
    three seconds. *)
Theorem construct_default_configuration `{P : Platform}
        (environ : gmap string string) (route : router_Route) (w : World)
        (host port : string) (splitErr : option error) (portNum : Z) :
  net_SplitHostPort (Address route) = (host, port, splitErr) →
  strconv.Atoi port = (portNum, None) →
  (∀ key, key ∈ fluent_keys → os_Getenv environ key = "") →
  news (construct environ route w).2 =
  [(default_config host portNum,
    (fluent_New (default_config host portNum) w).1.2)].
Proof.
  intros Hsplit Hport Hunset.
  assert (Hget : ∀ key fallback,
             key ∈ fluent_keys → getenv environ key fallback = fallback).
  { intros key fallback Hkey. unfold getenv. by rewrite (Hunset key Hkey). }
  unfold construct. rewrite Hsplit, Hport.
  rewrite !Hget by (unfold fluent_keys; repeat constructor).
  change (strconv.Atoi (strconv.Itoa defaultBufferLimit)) with (1048576, @None error).
  change (strconv.Atoi (strconv.Itoa defaultRetryWait)) with (1000, @None error).
  change (strconv.Atoi (strconv.Itoa defaultMaxRetries)) with (2147483647, @None error).
  change (strconv.ParseBool "false") with (false, @None error).
  change (strconv.Atoi (strconv.Itoa defaultWriteTimeout)) with (3, @None error).
  cbv iota beta.
  change (Int64.mul 3 time_Second) with 3000000000.
  unfold mbind, M_bind, New.
  match goal with
  | |- context [fluent_New ?c w] => change c with (default_config host portNum)
  end.
  destruct (fluent_New (default_config host portNum) w) as [[fl [e|]] w'];
    reflexivity.
Qed.

Lemma construct_default_configuration_witness :
  news (construct (P:=Stub.reliable) {["DEBUG" := "true"]} Stub.route (0, 0)%nat).2 =
  [(default_config "collector" 24224, None)].
Proof.
  apply (construct_default_configuration
           (P:=Stub.reliable) {["DEBUG" := "true"]} Stub.route (0, 0)%nat
           "collector" "24224" None 24224 eq_refl eq_refl).
  intros key Hkey. unfold fluent_keys in Hkey.
  repeat (apply elem_of_cons in Hkey as [-> | Hkey]; [reflexivity|]).
  by apply elem_of_nil in Hkey.
Defined.

(** X7. When [NewAdapter] returns an adapter it returns no error with it;
    it has asked for exactly one writer, a TCP one without socket path, the
    call succeeded, the adapter's writer is the one that call returned and
    the world is the one it left; the tag prefix and the label of the tag
    suffix are the ones read from the environment. *)
Theorem NewAdapter_adapter_comes_from_New `{P : Platform}
        (environ : gmap string string) (route : router_Route) (w w' : World)
        (ad : Adapter) (e : option error) (t : list event) :
  NewAdapter environ route w = (Some (Some ad, e), w', t) →
  e = None ∧
  tagPrefix ad = getenv environ "TAG_PREFIX" "docker" ∧
  tagSuffixLabel ad = getenv environ "TAG_SUFFIX_LABEL" "" ∧
  ∃ config w1,
    news t = [(config, None)] ∧
    fluent_New config w1 = ((writer ad, None), w') ∧
    FluentNetwork config = "tcp" ∧
    FluentSocketPath config = "".
Proof.
  intros Hrun.
  destruct (NewAdapter_stages environ route w)
    as [[err Hrun'] | (tr & m & wait & exit & w1 & t1 & _ & _ & _ & Hloop & Hrun')];
    rewrite Hrun' in Hrun; [done|].
  pose proof (dial_loop_quiet route tr m wait (Z.to_nat (m + 1)) 0 w) as [Hn _].
  rewrite Hloop in Hn. cbn [snd] in Hn.
  destruct exit as [err|]; [done|].
  destruct (construct_cases environ route w1)
    as [[err Hc] | [(c & fl & err & w2 & _ & _ & Hc)
                   | (c & fl & w2 & _ & Hnew & Hnet & Hsock & Hc)]];
    rewrite Hc in Hrun; [done | done |].
  injection Hrun as <- <- <- <-. cbn [writer tagPrefix tagSuffixLabel].
  do 3 (split; [done|]). exists c, w1.
  rewrite news_app, Hn. by cbn.
Qed.

Lemma NewAdapter_adapter_comes_from_New_witness :
  let ad := Stub.adapter (P:=Stub.reliable) tt "logs" "" in
  tagPrefix ad = getenv {["TAG_PREFIX" := "logs"]} "TAG_PREFIX" "docker" ∧
  ∃ config w1,
    news (NewAdapter (P:=Stub.reliable) {["TAG_PREFIX" := "logs"]}
                     Stub.route (0, 0)%nat).2 = [(config, None)] ∧
    fluent_New config w1 = ((writer ad, None), (1, 0)%nat) ∧
    FluentNetwork config = "tcp" ∧
    FluentSocketPath config = "".
Proof.
  intros ad.
  destruct (NewAdapter_adapter_comes_from_New
              (P:=Stub.reliable) {["TAG_PREFIX" := "logs"]} Stub.route
              (0, 0)%nat (1, 0)%nat ad None
              (NewAdapter (P:=Stub.reliable) {["TAG_PREFIX" := "logs"]}
                          Stub.route (0, 0)%nat).2)
    as (_ & Hprefix & _ & Hnew); [reflexivity|].
  split; [exact Hprefix | exact Hnew].
Defined.

(** X8. [NewAdapter] reads eleven variables and no other: in two
    environments that agree on them it does the same. *)
Theorem NewAdapter_reads_only_its_variables `{P : Platform}
        (environ1 environ2 : gmap string string) (route : router_Route)
        (w : World) :
  (∀ key, key ∈ config_keys → environ1 !! key = environ2 !! key) →
  NewAdapter environ1 route w = NewAdapter environ2 route w.
Proof.
  intros Hagree.
  assert (Hget : ∀ key fallback,
             key ∈ config_keys →
             getenv environ1 key fallback = getenv environ2 key fallback).
  { intros key fallback Hkey. unfold getenv, os_Getenv. by rewrite (Hagree key Hkey). }
  unfold NewAdapter, construct.
  rewrite (Hget "CONNECTION_MAX_RETRIES"), (Hget "CONNECTION_RETRY_WAIT"),
    (Hget "FLUENTD_BUFFER_LIMIT"), (Hget "FLUENTD_RETRY_WAIT"),
    (Hget "FLUENTD_MAX_RETRIES"), (Hget "FLUENTD_ASYNC_CONNECT"),
    (Hget "FLUENTD_SUBSECOND_PRECISION"), (Hget "FLUENTD_REQUEST_ACK"),
    (Hget "FLUENTD_WRITE_TIMEOUT"), (Hget "TAG_PREFIX"), (Hget "TAG_SUFFIX_LABEL")
    by (unfold config_keys; repeat constructor).
  reflexivity.
Qed.

Lemma NewAdapter_reads_only_its_variables_witness :
  NewAdapter (P:=Stub.reliable) ∅ Stub.route (0, 0)%nat =
  NewAdapter (P:=Stub.reliable) {["DEBUG" := "true"]} Stub.route (0, 0)%nat.
Proof.
  apply (NewAdapter_reads_only_its_variables (P:=Stub.reliable)).
  intros key Hkey. unfold config_keys in Hkey.
  repeat (apply elem_of_cons in Hkey as [-> | Hkey]; [reflexivity|]).
  by apply elem_of_nil in Hkey.
Defined.

(** X9. A malformed variable never leads to a writer: when one of the nine
    numeric or boolean variables is set to a value that is not empty and
    does not parse, [NewAdapter] never calls [fluent.New]; and when the
    variable is one of the two connection variables it does nothing at all
    before returning the error: nothing is dialled. *)
Theorem NewAdapter_malformed_never_asks_for_writer `{P : Platform}
        (environ : gmap string string) (route : router_Route) (w : World)
        (key : string) (kind : var_kind) (value : string) :
  (key, kind) ∈ config_variables →
  environ !! key = Some value →
  value ≠ "" →
  malformed kind value →
  news (NewAdapter environ route w).2 = [] ∧
  (key ∈ ["CONNECTION_MAX_RETRIES"; "CONNECTION_RETRY_WAIT"] →
   ∃ e, NewAdapter environ route w = (Some (None, Some e), w, [])).
Proof.
  intros Hin Hkey Hvalue Hbad.
  pose proof (malformed_not_parses environ key kind value Hin Hkey Hvalue Hbad)
    as Hnot.
  destruct (NewAdapter_stages environ route w)
    as [[err Hrun] | (tr & m & wait & exit & w1 & t1 & _ & Hmax & Hwait & Hloop & Hrun)].
  { rewrite Hrun. split; [done | eauto]. }
  assert (Hconn : connection_parses environ).
  { unfold connection_parses, parses. by rewrite Hmax, Hwait. }
  split.
  - rewrite Hrun.
    pose proof (dial_loop_quiet route tr m wait (Z.to_nat (m + 1)) 0 w) as [Hn _].
    rewrite Hloop in Hn. cbn [snd] in Hn.
    destruct exit as [err|]; [done|].
    destruct (construct_cases environ route w1)
      as [[err ->] | [(c & fl & err & w2 & Hf & _) | (c & fl & w2 & Hf & _)]];
      [|by destruct Hnot..].
    cbn [snd]. by rewrite app_nil_r.
  - intros Hk. exfalso.
    assert (Hcases : key = "CONNECTION_MAX_RETRIES" ∨ key = "CONNECTION_RETRY_WAIT").
    { apply elem_of_cons in Hk as [-> | Hk]; [by left|].
      apply elem_of_cons in Hk as [-> | Hk]; [by right|].
      by apply elem_of_nil in Hk. }
    assert (Hkind : kind = Numeric).
    { destruct kind; [done|]. exfalso. unfold config_variables in Hin.
      destruct Hcases as [-> | ->];
        repeat (apply elem_of_cons in Hin as [Heq | Hin]; [discriminate Heq|]);
        by apply elem_of_nil in Hin. }
    subst kind. unfold malformed in Hbad.
    destruct Hcases as [-> | ->].
    + rewrite (getenv_set environ _ "10" value) in Hmax by done.
      by rewrite Hmax in Hbad.
    + rewrite (getenv_set environ _ "1" value) in Hwait by done.
      by rewrite Hwait in Hbad.
Qed.

Lemma NewAdapter_malformed_never_asks_for_writer_witness :
  let environ : gmap string string := {["CONNECTION_RETRY_WAIT" := "1s"]} in
  news (NewAdapter (P:=Stub.reliable) environ Stub.route (0, 0)%nat).2 = [] ∧
  ∃ e, NewAdapter (P:=Stub.reliable) environ Stub.route (0, 0)%nat
       = (Some (None, Some e), (0, 0)%nat, []).
Proof.
  intros environ.
  destruct (NewAdapter_malformed_never_asks_for_writer
              (P:=Stub.reliable) environ Stub.route (0, 0)%nat
              "CONNECTION_RETRY_WAIT" Numeric "1s")
    as [Hnews Hnothing];
    [unfold config_variables; repeat constructor
    | reflexivity | discriminate | discriminate |].
  split; [exact Hnews|]. apply Hnothing. repeat constructor.
Defined.

(** ** What [Stream] does, whatever the stream *)

Section StreamShape.
Context `{P : Platform}.

Lemma dials_debug environ v : dials (debug_events environ v) = [].
Proof. unfold debug_events. by destruct (_ =? _)%string. Qed.

Lemma sleeps_debug environ v : sleeps (debug_events environ v) = [].
Proof. unfold debug_events. by destruct (_ =? _)%string. Qed.

Lemma news_debug environ v : news (debug_events environ v) = [].
Proof. unfold debug_events. by destruct (_ =? _)%string. Qed.

Lemma debug_events_off environ v :
  os_Getenv environ "DEBUG" ≠ "true" → debug_events environ v = [].
Proof.
  intros Hoff. unfold debug_events.
  by destruct (String.eqb_spec (os_Getenv environ "DEBUG") "true").
Qed.

Lemma events_of_posts_app (ps1 ps2 : list post_call) :
  events_of_posts (ps1 ++ ps2) = events_of_posts ps1 ++ events_of_posts ps2.
Proof. unfold events_of_posts. apply bind_app. Qed.

(** One turn of the loop: where the world goes, what is posted, and what
    the whole trace is when [debug] prints nothing. *)
Lemma Stream_body_effect environ ad m w :
  (Stream_body environ ad m w).1.2 =
  (if all_space (Data m) then w else (post_outcome ad m w).2) ∧
  posts (Stream_body environ ad m w).2 =
  (if all_space (Data m) then []
   else [(call_for ad m, (post_outcome ad m w).1)]) ∧
  logged_errors (Stream_body environ ad m w).2 =
  (if all_space (Data m) then [] else option_list (post_outcome ad m w).1) ∧
  dials (Stream_body environ ad m w).2 = [] ∧
  sleeps (Stream_body environ ad m w).2 = [] ∧
  news (Stream_body environ ad m w).2 = [] ∧
  (os_Getenv environ "DEBUG" ≠ "true" →
   (Stream_body environ ad m w).2
   = events_of_posts (posts (Stream_body environ ad m w).2)).
Proof.
  rewrite Stream_body_run. unfold post_outcome, call_for.
  destruct (all_space (Data m)).
  - cbn [fst snd].
    rewrite posts_app, logged_errors_app, dials_app, sleeps_app, news_app,
      !posts_debug, !dials_debug, !sleeps_debug, !news_debug,
      !logged_errors_debug by reflexivity.
    repeat split. intros Hoff. by rewrite !debug_events_off.
  - destruct (Fluent_PostWithTime _ _ _ _ w) as [err w']. cbn [fst snd].
    rewrite posts_app, logged_errors_app, dials_app, sleeps_app, news_app,
      !posts_debug, !dials_debug, !sleeps_debug, !news_debug,
      !logged_errors_debug, posts_post_events, logged_errors_post_events
      by reflexivity.
    repeat split; try by destruct err.
    intros Hoff. rewrite !debug_events_off by done. by destruct err.
Qed.

(** The loop over any operations of the producer, turn by turn. *)
Lemma range_logstream_send environ ad m rest w :
  range_logstream environ ad (ChanSend m :: rest) w =
  let '(st, w', t) :=
    range_logstream environ ad rest (Stream_body environ ad m w).1.2 in
  (st, w', (Stream_body environ ad m w).2 ++ t).
Proof.
  cbn [range_logstream]. unfold mbind, M_bind.
  by destruct (Stream_body environ ad m w) as [[[] w1] t1].
Qed.
End StreamShape.

(** X10. [Stream] only posts and logs: whatever the stream, it dials
    nothing, never sleeps and asks for no writer.  [NewAdapter], for its
    part, never posts. *)
Theorem Stream_only_posts_and_logs `{P : Platform}
        (environ : gmap string string) :
  (∀ ad ops w,
     dials (Stream environ ad ops w).2 = [] ∧
     sleeps (Stream environ ad ops w).2 = [] ∧
     news (Stream environ ad ops w).2 = []) ∧
  (∀ route w, posts (NewAdapter environ route w).2 = []).
Proof.
  split.
  - intros ad ops w. rewrite Stream_run.
    assert (Hrange : dials (range_logstream environ ad ops w).2 = [] ∧
                     sleeps (range_logstream environ ad ops w).2 = [] ∧
                     news (range_logstream environ ad ops w).2 = []).
    { revert w. induction ops as [|[m|] ops IH]; intros w; [done | | done].
      rewrite range_logstream_send.
      destruct (Stream_body_effect environ ad m w) as (_ & _ & _ & Hd & Hs & Hn & _).
      destruct (IH (Stream_body environ ad m w).1.2) as (Hd' & Hs' & Hn').
      destruct (range_logstream environ ad ops _) as [[st w'] t]. cbn [snd] in *.
      by rewrite dials_app, sleeps_app, news_app, Hd, Hs, Hn, Hd', Hs', Hn'. }
    destruct (range_logstream environ ad ops w) as [[st w'] t]. cbn [snd] in *.
    destruct Hrange as (Hd & Hs & Hn).
    by rewrite dials_app, sleeps_app, news_app, dials_debug, sleeps_debug,
      news_debug, Hd, Hs, Hn.
  - intros route w.
    destruct (NewAdapter_stages environ route w)
      as [[e ->] | (tr & n & wait & exit & w1 & t1 & _ & _ & _ & Hloop & ->)];
      [done|].
    pose proof (dial_loop_quiet route tr n wait (Z.to_nat (n + 1)) 0 w) as [_ Hp].
    rewrite Hloop in Hp. cbn [snd] in Hp.
    destruct exit as [e|]; [done|].
    destruct (construct_quiet environ route w1) as (_ & _ & Hp' & _).
    destruct (construct environ route w1) as [[r w2] t2]. cbn [snd] in *.
    by rewrite posts_app, Hp, Hp'.
Qed.

(** X11. The tag of a message is always the adapter's prefix, a dot and
    the suffix (the test on the length of the prefix changes nothing), and
    the suffix is never empty: an absent or empty label gives container
    name, dash, host name.  So the tag itself is never empty. *)
Theorem Stream_tag_is_prefix_dot_suffix `{P : Platform}
        (ad : Adapter) (m : router_Message) :
  Stream_tag ad m = tagPrefix ad +:+ "." +:+ tag_suffix (tagSuffixLabel ad) m ∧
  tag_suffix (tagSuffixLabel ad) m ≠ "" ∧
  Stream_tag ad m ≠ "".
Proof.
  assert (Htag : Stream_tag ad m
                 = tagPrefix ad +:+ "." +:+ tag_suffix (tagSuffixLabel ad) m).
  { rewrite Stream_tag_suffix. by destruct (tagPrefix ad). }
  split; [exact Htag|]. split.
  - unfold tag_suffix.
    destruct (Labels (Config (Container m)) !! tagSuffixLabel ad) as [v|];
      [case_decide; [|done] |]; by destruct (Name (Container m)).
  - rewrite Htag. by destruct (tagPrefix ad).
Qed.

Section StreamAnyOps.
Context `{P : Platform}.

(** Two environments: the loop ends the same way, in the same world, with
    the same posts and the same errors logged. *)
Lemma range_logstream_environ e1 e2 ad ops w :
  (range_logstream e1 ad ops w).1 = (range_logstream e2 ad ops w).1 ∧
  posts (range_logstream e1 ad ops w).2 = posts (range_logstream e2 ad ops w).2 ∧
  logged_errors (range_logstream e1 ad ops w).2
  = logged_errors (range_logstream e2 ad ops w).2.
Proof.
  revert w. induction ops as [|[m|] ops IH]; intros w; [done | | done].
  rewrite !range_logstream_send.
  destruct (Stream_body_effect e1 ad m w) as (Hw1 & Hp1 & Hl1 & _).
  destruct (Stream_body_effect e2 ad m w) as (Hw2 & Hp2 & Hl2 & _).
  rewrite Hw1, Hw2.
  destruct (IH (if all_space (Data m) then w else (post_outcome ad m w).2))
    as (Hst & Hp & Hl).
  destruct (range_logstream e1 ad ops _) as [[st1 w1] t1].
  destruct (range_logstream e2 ad ops _) as [[st2 w2] t2].
  cbn [fst snd] in *.
  by rewrite !posts_app, !logged_errors_app, Hp1, Hp2, Hl1, Hl2, Hp, Hl, Hst.
Qed.

(** With [debug] silent the trace of the loop is made of its posts. *)
Lemma range_logstream_quiet environ ad ops w :
  os_Getenv environ "DEBUG" ≠ "true" →
  (range_logstream environ ad ops w).2
  = events_of_posts (posts (range_logstream environ ad ops w).2).
Proof.
  intros Hoff. revert w. induction ops as [|[m|] ops IH]; intros w; [done | | done].
  rewrite range_logstream_send.
  destruct (Stream_body_effect environ ad m w) as (_ & _ & _ & _ & _ & _ & Hq).
  specialize (IH (Stream_body environ ad m w).1.2).
  destruct (range_logstream environ ad ops _) as [[st w'] t]. cbn [snd] in *.
  by rewrite posts_app, events_of_posts_app, <- Hq, <- IH.
Qed.

(** Blank messages can be left out of the stream. *)
Lemma range_logstream_drop_blank environ ad ops w :
  (range_logstream environ ad ops w).1
  = (range_logstream environ ad (drop_blank ops) w).1 ∧
  posts (range_logstream environ ad ops w).2
  = posts (range_logstream environ ad (drop_blank ops) w).2.
Proof.
  revert w. induction ops as [|[m|] ops IH]; intros w; [done | | done].
  unfold drop_blank. cbn [List.filter is_blank_send]. fold (drop_blank ops).
  destruct (Stream_body_effect environ ad m w) as (Hw & Hp & _).
  destruct (all_space (Data m)) eqn:Hblank; cbn [negb].
  - rewrite range_logstream_send, Hw.
    destruct (IH w) as [Hst Hposts].
    destruct (range_logstream environ ad ops w) as [[st w'] t].
    cbn [fst snd] in *. by rewrite posts_app, Hp.
  - rewrite !range_logstream_send.
    destruct (IH (Stream_body environ ad m w).1.2) as [Hst Hposts].
    destruct (range_logstream environ ad ops _) as [[st w'] t].
    destruct (range_logstream environ ad (drop_blank ops) _) as [[st2 w2] t2].
    cbn [fst snd] in *. by rewrite !posts_app, Hposts, Hst.
Qed.

(** The world after the loop over some messages. *)
Lemma range_logstream_world environ ad ms rest w :
  rest = [] ∨ (∃ later, rest = ChanClose :: later) →
  (range_logstream environ ad (map ChanSend ms ++ rest) w).1.2
  = sender_after ad (accepted ms) w.
Proof.
  intros Hrest. revert w. induction ms as [|m ms IH]; intros w.
  - by destruct Hrest as [-> | [later ->]].
  - cbn [map app]. rewrite range_logstream_send, accepted_cons.
    destruct (Stream_body_effect environ ad m w) as (Hw & _).
    specialize (IH (Stream_body environ ad m w).1.2).
    destruct (range_logstream environ ad (map ChanSend ms ++ rest) _)
      as [[st w'] t].
    cbn [fst snd] in *. rewrite IH, Hw.
    by destruct (all_space (Data m)).
Qed.
End StreamAnyOps.

(** X12. The environment changes what [Stream] logs and nothing else: in
    any two environments and over any stream it ends the same way (returned
    or still receiving), leaves the sender in the same state, makes the same
    posts with the same outcomes and logs the same errors. *)
Theorem Stream_environment_changes_logging_only `{P : Platform}
        (environ1 environ2 : gmap string string) (ad : Adapter)
        (ops : list chan_op) (w : World) :
  (Stream environ1 ad ops w).1 = (Stream environ2 ad ops w).1 ∧
  posts (Stream environ1 ad ops w).2 = posts (Stream environ2 ad ops w).2 ∧
  logged_errors (Stream environ1 ad ops w).2
  = logged_errors (Stream environ2 ad ops w).2.
Proof.
  rewrite !Stream_run.
  destruct (range_logstream_environ environ1 environ2 ad ops w) as (Hst & Hp & Hl).
  destruct (range_logstream environ1 ad ops w) as [[st1 w1] t1].
  destruct (range_logstream environ2 ad ops w) as [[st2 w2] t2].
  cbn [fst snd] in *.
  rewrite !posts_app, !logged_errors_app, !posts_debug,
    !logged_errors_debug by reflexivity.
  by rewrite Hst, Hp, Hl.
Qed.

(** X13. Unless [DEBUG] is exactly the string true, [Stream] prints
    nothing but the errors of failed posts: its trace is made of its posts,
    each failed one followed by the line that reports its error.  When
    [DEBUG] is true, the first thing it does is to print that it received a
    message. *)
Theorem Stream_quiet_unless_DEBUG_is_true `{P : Platform}
        (environ : gmap string string) (ad : Adapter)
        (ops : list chan_op) (w : World) :
  (os_Getenv environ "DEBUG" ≠ "true" →
   (Stream environ ad ops w).2
   = events_of_posts (posts (Stream environ ad ops w).2)) ∧
  (os_Getenv environ "DEBUG" = "true" →
   ∃ t, (Stream environ ad ops w).2
        = EvPrintln [LStr "received message from container"] :: t).
Proof.
  rewrite Stream_run. split.
  - intros Hoff. pose proof (range_logstream_quiet environ ad ops w Hoff) as Hq.
    destruct (range_logstream environ ad ops w) as [[st w'] t]. cbn [snd] in *.
    by rewrite debug_events_off.
  - intros Hon. destruct (range_logstream environ ad ops w) as [[st w'] t].
    exists t. unfold debug_events. by rewrite Hon.
Qed.

Lemma Stream_quiet_unless_DEBUG_is_true_witness :
  let ad := Stub.adapter (P:=Stub.second_post_fails) tt "docker" "svc" in
  let ops := Stub.three_messages (P:=Stub.second_post_fails) 1 2 3 in
  ((Stream {["DEBUG" := "TRUE"]} ad ops (0, 0)%nat).2
   = events_of_posts (posts (Stream {["DEBUG" := "TRUE"]} ad ops (0, 0)%nat).2)) ∧
  ∃ t, (Stream {["DEBUG" := "true"]} ad ops (0, 0)%nat).2
       = EvPrintln [LStr "received message from container"] :: t.
Proof.
  intros ad ops. split.
  - apply (Stream_quiet_unless_DEBUG_is_true
             (P:=Stub.second_post_fails) {["DEBUG" := "TRUE"]} ad ops (0, 0)%nat).
    discriminate.
  - apply (Stream_quiet_unless_DEBUG_is_true
             (P:=Stub.second_post_fails) {["DEBUG" := "true"]} ad ops (0, 0)%nat).
    reflexivity.
Defined.

(** X14. Blank messages leave no mark: taking them out of the stream
    beforehand changes neither how [Stream] ends, nor the state it leaves
    the sender in, nor its posts and their outcomes. *)
Theorem Stream_blank_messages_leave_no_mark `{P : Platform}
        (environ : gmap string string) (ad : Adapter)
        (ops : list chan_op) (w : World) :
  (Stream environ ad ops w).1 = (Stream environ ad (drop_blank ops) w).1 ∧
  posts (Stream environ ad ops w).2
  = posts (Stream environ ad (drop_blank ops) w).2.
Proof.
  rewrite !Stream_run.
  destruct (range_logstream_drop_blank environ ad ops w) as [Hst Hp].
  destruct (range_logstream environ ad ops w) as [[st1 w1] t1].
  destruct (range_logstream environ ad (drop_blank ops) w) as [[st2 w2] t2].
  cbn [fst snd] in *. by rewrite !posts_app, Hst, Hp.
Qed.

(** X16. The sender is touched by the posts of the accepted messages and
    by nothing else: after a stream of messages, closed or not, it is in
    the state the posts of the accepted messages, made one after the other,
    leave it in. *)
Theorem Stream_leaves_sender_after_accepted_posts `{P : Platform}
        (environ : gmap string string) (ad : Adapter)
        (ms : list router_Message) (w : World) :
  (∀ later,
     (Stream environ ad (map ChanSend ms ++ ChanClose :: later) w).1.2
     = sender_after ad (accepted ms) w) ∧
  (Stream environ ad (map ChanSend ms) w).1.2 = sender_after ad (accepted ms) w.
Proof.
  split.
  - intros later. rewrite Stream_run.
    pose proof (range_logstream_world environ ad ms (ChanClose :: later) w) as Hw.
    destruct (range_logstream environ ad (map ChanSend ms ++ ChanClose :: later) w)
      as [[st w'] t].
    apply Hw. right. by exists later.
  - rewrite Stream_run.
    pose proof (range_logstream_world environ ad ms [] w) as Hw.
    rewrite app_nil_r in Hw.
    destruct (range_logstream environ ad (map ChanSend ms) w) as [[st w'] t].
    apply Hw. by left.
Qed.

(** X17. An adapter built by [NewAdapter] with [TAG_PREFIX] and
    [TAG_SUFFIX_LABEL] unset or empty tags by container: for a container
    without a label of empty name (or with an empty one), the tag is
    docker, a dot, the container name, a dash and the host name. *)
Theorem NewAdapter_default_tag `{P : Platform}
        (environ : gmap string string) (route : router_Route) (w w' : World)
        (ad : Adapter) (e : option error) (t : list event)
        (m : router_Message) :
  NewAdapter environ route w = (Some (Some ad, e), w', t) →
  os_Getenv environ "TAG_PREFIX" = "" →
  os_Getenv environ "TAG_SUFFIX_LABEL" = "" →
  default "" (Labels (Config (Container m)) !! "") = "" →
  Stream_tag ad m =
  "docker." +:+ Name (Container m) +:+ "-" +:+ Hostname (Config (Container m)).
Proof.
  intros Hrun Hprefix Hlabel Hnolabel.
  destruct (NewAdapter_stages environ route w)
    as [[err Hrun'] | (tr & n & wait & exit & w1 & t1 & _ & _ & _ & _ & Hrun')];
    rewrite Hrun' in Hrun; [done|].
  destruct exit as [err|]; [done|].
  destruct (construct_cases environ route w1)
    as [[err Hc] | [(c & fl & err & w2 & _ & _ & Hc)
                   | (c & fl & w2 & _ & _ & _ & _ & Hc)]];
    rewrite Hc in Hrun; [done | done |].
  injection Hrun as <- _ _ _.
  unfold Stream_tag, getenv. cbn [tagPrefix tagSuffixLabel].
  rewrite Hprefix, Hlabel. cbn [String.length Nat.eqb].
  by rewrite Hnolabel.
Qed.

Lemma NewAdapter_default_tag_witness :
  Stream_tag (Stub.adapter (P:=Stub.reliable) tt "docker" "")
             (Stub.message (P:=Stub.reliable) Stub.svc_api "hello" 1)
  = "docker.web1-host-a".
Proof.
  apply (NewAdapter_default_tag
           (P:=Stub.reliable) ∅ Stub.route (0, 0)%nat (1, 0)%nat _ None
           (NewAdapter (P:=Stub.reliable) ∅ Stub.route (0, 0)%nat).2);
    reflexivity.
Defined.
